(** * ValkyriaChroniclesPatch: the patch tool for [Valkyria.exe]

    A shallow embedding of [src/ValkyriaChroniclesPatch.py] and the
    properties of its four parts: the signature codec ([parse_signature]
    and the [{byte:02X}] formatter), the resolution source
    ([get_desktop_resolution]), the patch calculator (the arithmetic of
    [patch]) and the executable patcher ([edit_exe]).

    Conventions of the embedding.
    - A Python [int] is a [Z]; a [bytes] object is a [list byte]; a [str]
      is a [string], read as a sequence of code points below 256.
    - A call that can raise returns a [result]; the exception classes the
      program meets are the constructors of [exn].
    - Files and the console are explicit state ([world]). *)

From Stdlib Require Import ZArith NArith List String Ascii Bool Lia.
From Stdlib Require Import Strings.Byte Strings.HexString Numbers.DecimalString.
Import ListNotations.

Local Open Scope string_scope.
Local Open Scope list_scope.
Local Open Scope Z_scope.

(** ** Exceptions and results *)

Inductive exn : Type :=
| ValueError      (* int(token, 16) on a bad token; bytes() out of range(256) *)
| OverflowError   (* int.to_bytes on a negative or too large int; huge true division *)
| IndexError      (* data[0] on an empty list; get_monitors()[0] *)
| OSError (e : string). (* an I/O error that no handler of the program catches *)

Inductive result (A : Type) : Type :=
| Ok (a : A)
| Raise (e : exn).
Arguments Ok {A} a.
Arguments Raise {A} e.

Definition bind {A B : Type} (r : result A) (k : A -> result B) : result B :=
  match r with
  | Ok a => k a
  | Raise e => Raise e
  end.

Notation "x <- r ;; k" := (bind r (fun x => k))
  (at level 61, r at next level, right associativity).

(** ** Characters and strings *)

(** [str.isspace] on one code point below 256: TAB..CR, FS..US, space,
    NEL (0x85) and NBSP (0xA0). *)
Definition isspace (c : ascii) : bool :=
  let n := N_of_ascii c in
  (((9 <=? n) && (n <=? 13)) || ((28 <=? n) && (n <=? 32))
   || (n =? 133) || (n =? 160))%N.

Definition is_empty (s : string) : bool :=
  match s with
  | EmptyString => true
  | String _ _ => false
  end.

Definition cons_token (t : string) (ts : list string) : list string :=
  if is_empty t then ts else t :: ts.

(** [split_aux s] is the token that starts at the head of [s] (empty when
    [s] starts with white space) and the tokens after it. *)
Fixpoint split_aux (s : string) : string * list string :=
  match s with
  | EmptyString => (EmptyString, [])
  | String c r =>
      let (t, ts) := split_aux r in
      if isspace c then (EmptyString, cons_token t ts)
      else (String c t, ts)
  end.

(** [str.split()] without arguments: the maximal runs of characters that
    are not white space, in order; no empty token. *)
Definition split (s : string) : list string :=
  let (t, ts) := split_aux s in cons_token t ts.

Fixpoint lstrip (s : string) : string :=
  match s with
  | EmptyString => EmptyString
  | String c r => if isspace c then lstrip r else s
  end.

Fixpoint rstrip (s : string) : string :=
  match s with
  | EmptyString => EmptyString
  | String c r =>
      let r' := rstrip r in
      if isspace c && is_empty r' then EmptyString else String c r'
  end.

(** [str.strip()] without arguments. *)
Definition strip (s : string) : string := rstrip (lstrip s).

(** [sep.join(parts)]. *)
Definition join (sep : string) (parts : list string) : string :=
  String.concat sep parts.

(** ** Signature codec *)

Definition hex_digit_value (c : ascii) : option Z :=
  let n := Z.of_N (N_of_ascii c) in
  if (48 <=? n) && (n <=? 57) then Some (n - 48)
  else if (97 <=? n) && (n <=? 102) then Some (n - 87)
  else if (65 <=? n) && (n <=? 70) then Some (n - 55)
  else None.

(** The digit scan of [int(s, 16)]: hexadecimal digits, with single
    underscores allowed between two digits only.  [prev_digit] tells
    whether the character before the head of [s] was a digit. *)
Fixpoint scan_hex (s : string) (acc : Z) (prev_digit : bool) : option Z :=
  match s with
  | EmptyString => if prev_digit then Some acc else None
  | String c r =>
      if Ascii.eqb c "_" then
        if prev_digit then scan_hex r acc false else None
      else
        match hex_digit_value c with
        | Some d => scan_hex r (16 * acc + d) true
        | None => None
        end
  end.

Definition strip_sign (s : string) : bool * string :=
  match s with
  | String "+" r => (false, r)
  | String "-" r => (true, r)
  | _ => (false, s)
  end.

Definition strip_0x (s : string) : string :=
  match s with
  | String "0" (String x r) =>
      if Ascii.eqb x "x" || Ascii.eqb x "X" then
        match r with
        | String "_" r' => r'
        | _ => r
        end
      else s
  | _ => s
  end.

(** The white space [int()] skips around a numeral: TAB..CR and space,
    and, of the code points from 128 on, NEL and NBSP.  The separators
    FS..US, white space for [str.split], are not skipped by [int()]. *)
Definition int_isspace (c : ascii) : bool :=
  let n := N_of_ascii c in
  (((9 <=? n) && (n <=? 13)) || (n =? 32) || (n =? 133) || (n =? 160))%N.

Fixpoint int_lstrip (s : string) : string :=
  match s with
  | EmptyString => EmptyString
  | String c r => if int_isspace c then int_lstrip r else s
  end.

Fixpoint int_rstrip (s : string) : string :=
  match s with
  | EmptyString => EmptyString
  | String c r =>
      let r' := int_rstrip r in
      if int_isspace c && is_empty r' then EmptyString else String c r'
  end.

(** [int(token, 16)]; [None] stands for the [ValueError] it raises.  The
    built-in skips white space around the numeral, takes an optional
    sign, an optional [0x]/[0X] prefix (one underscore may follow it) and
    then digits. *)
Definition int16 (token : string) : option Z :=
  let (neg, s) := strip_sign (int_rstrip (int_lstrip token)) in
  match scan_hex (strip_0x s) 0 false with
  | Some v => Some (if neg then - v else v)
  | None => None
  end.

Definition is_wildcard (token : string) : bool :=
  String.eqb token "?" || String.eqb token "??".

(** The loop of [parse_signature]: one [int] per token, in order. *)
Fixpoint byte_array_of (tokens : list string) : result (list Z) :=
  match tokens with
  | [] => Ok []
  | token :: rest =>
      v <- (if is_wildcard token then Ok 0
            else match int16 token with
                 | Some v => Ok v
                 | None => Raise ValueError
                 end) ;;
      vs <- byte_array_of rest ;;
      Ok (v :: vs)
  end.

Definition byte_of_int (v : Z) : option byte :=
  if (0 <=? v) && (v <? 256) then Byte.of_N (Z.to_N v) else None.

(** [bytes(byte_array)]: every element must be in [range(256)]. *)
Fixpoint bytes_of (byte_array : list Z) : result (list byte) :=
  match byte_array with
  | [] => Ok []
  | v :: rest =>
      match byte_of_int v with
      | Some b => bs <- bytes_of rest ;; Ok (b :: bs)
      | None => Raise ValueError
      end
  end.

Definition parse_signature (signature : string) : result (list byte) :=
  byte_array <- byte_array_of (split signature) ;;
  bytes_of byte_array.

Definition hex_upper_digit (d : Z) : ascii :=
  ascii_of_N (Z.to_N (if d <? 10 then 48 + d else 55 + d)).

(** [f"{byte:02X}"] for one element of a [bytes] object. *)
Definition format_02X (b : byte) : string :=
  let n := Z.of_N (Byte.to_N b) in
  String (hex_upper_digit (n / 16)) (String (hex_upper_digit (n mod 16)) EmptyString).

(** [" ".join(f"{byte:02X}" for byte in bs)]. *)
Definition hex_join (bs : list byte) : string :=
  join " " (map format_02X bs).

(** ** Resolution source *)

Record monitor : Type := Monitor
  { is_primary : bool; width : Z; height : Z }.

(** [get_desktop_resolution()], given the list [get_monitors()] returns
    (both calls return the same list).  A call of [get_monitors()] that
    raises by itself, as the library does when it finds no way to
    enumerate displays, never reaches the lines of this function and is
    no case of the list. *)
Definition get_desktop_resolution (monitors : list monitor) : result (Z * Z) :=
  match find is_primary monitors with
  | Some m => Ok (width m, height m)
  | None =>
      match monitors with
      | primary_monitor :: _ => Ok (width primary_monitor, height primary_monitor)
      | [] => Raise IndexError
      end
  end.

(** ** Patch calculator *)

(** Rounding of [m / 2^s] to the nearest integer, ties to even: the
    rounding of a binary64 significand. *)
Definition round_half_even (m s : Z) : Z :=
  let q := m / 2 ^ s in
  let r := m mod 2 ^ s in
  if 2 * r <? 2 ^ s then q
  else if 2 ^ s <? 2 * r then q + 1
  else if Z.even q then q else q + 1.

(** [int(n / 2)] for a Python [int] [n].  [n / 2] is the binary64 number
    nearest to the quotient (53 significant bits, ties to even), and
    [OverflowError] when that is no finite float; [int()] then truncates
    toward zero.  [s] is the number of bits of [|n|] beyond 53. *)
Definition int_truediv2 (n : Z) : result Z :=
  let m := Z.abs n in
  let s := Z.max 0 (Z.log2 m + 1 - 53) in
  let twice := round_half_even m s * 2 ^ s in
  if 2 ^ 1025 <=? twice then Raise OverflowError
  else Ok (Z.sgn n * (twice / 2)).

Definition byte_of_Z (v : Z) : byte :=
  match Byte.of_N (Z.to_N (v mod 256)) with
  | Some b => b
  | None => x00
  end.

Fixpoint le_bytes (length : nat) (n : Z) : list byte :=
  match length with
  | O => []
  | S k => byte_of_Z n :: le_bytes k (n / 256)
  end.

(** [n.to_bytes(4, byteorder="little", signed=False)]. *)
Definition to_bytes4 (n : Z) : result (list byte) :=
  if n <? 0 then Raise OverflowError
  else if 2 ^ 32 <=? n then Raise OverflowError
  else Ok (le_bytes 4 n).

(** Lines 186-187 of [patch]: a zero in the configuration selects the
    desktop resolution. *)
Definition resolve (width height desktop_width desktop_height : Z) : Z * Z :=
  if (width =? 0) || (height =? 0) then (desktop_width, desktop_height)
  else (width, height).

(** Line 188: [offset = int((desktop_width - width) / 2)]. *)
Definition compute_offset (desktop_width width : Z) : result Z :=
  int_truediv2 (desktop_width - width).

(** Line 189, before the encoding: [height << 4]. *)
Definition compute_special (height : Z) : Z := Z.shiftl height 4.

Definition search_pattern1 : string :=
  "B8 39 8E E3 38 F7 E3 8B FA B8 39 8E E3 38".

(** Line 198, the f-string. *)
Definition assemble (width special offset height : string) : string :=
  "B8 " ++ width ++ " BB " ++ special ++ " B9 " ++ offset ++ " BA " ++ width
  ++ " BE " ++ height ++ " BF " ++ width ++ " 90".

(** Lines 186-198 of [patch]: from the configured and the desktop
    resolution to [replace_pattern]. *)
Definition compute_patch
    (width height desktop_width desktop_height : Z) : result string :=
  let (width, height) := resolve width height desktop_width desktop_height in
  offset <- compute_offset desktop_width width ;;
  special <- to_bytes4 (compute_special height) ;;
  width <- to_bytes4 width ;;
  height <- to_bytes4 height ;;
  offset <- to_bytes4 offset ;;
  Ok (assemble (hex_join width) (hex_join special) (hex_join offset) (hex_join height)).

(** ** Files and console *)

(** What [open] finds at a path: no file ([FileNotFoundError]), a file
    that cannot be opened ([e] is the text of the [IOError]), or a file
    with its contents. *)
Inductive file (A : Type) : Type :=
| Missing
| Unavailable (e : string)
| Contents (c : A).
Arguments Missing {A}.
Arguments Unavailable {A} e.
Arguments Contents {A} c.

(** The target executable, the side file [patch.txt], and the lines
    printed so far.  The executable's path is taken to differ from
    [patch.txt]. *)
Record world : Type := World
  { exe : file (list byte); sidecar : file string; stdout : list string }.

Definition print (line : string) (w : world) : world :=
  {| exe := exe w; sidecar := sidecar w; stdout := stdout w ++ [line] |}.

Definition set_exe (f : file (list byte)) (w : world) : world :=
  {| exe := f; sidecar := sidecar w; stdout := stdout w |}.

Definition set_sidecar (f : file string) (w : world) : world :=
  {| exe := exe w; sidecar := f; stdout := stdout w |}.

Definition LF : ascii := "010".
Definition CR : ascii := "013".

(** Text mode reading: [CR LF] and a lone [CR] are read as [LF]. *)
Fixpoint universal_newlines (s : string) : string :=
  match s with
  | EmptyString => EmptyString
  | String c r =>
      if Ascii.eqb c CR then
        match r with
        | String c' r' =>
            if Ascii.eqb c' LF then String LF (universal_newlines r')
            else String LF (universal_newlines r)
        | EmptyString => String LF EmptyString
        end
      else String c (universal_newlines r)
  end.

(** The line that starts at the head of [s], with its [LF] when it has
    one, and the lines after it. *)
Fixpoint lines_aux (s : string) : string * list string :=
  match s with
  | EmptyString => (EmptyString, [])
  | String c r =>
      let (l, ls) := lines_aux r in
      if Ascii.eqb c LF then (String c EmptyString, cons_token l ls)
      else (String c l, ls)
  end.

(** [file.readlines()] of a file opened with mode ['r']. *)
Definition readlines (text : string) : list string :=
  let (l, ls) := lines_aux (universal_newlines text) in cons_token l ls.

(** ** Executable patcher *)

Fixpoint starts_with (data sub : list byte) : bool :=
  match sub, data with
  | [], _ => true
  | _ :: _, [] => false
  | x :: sub', y :: data' => Byte.eqb x y && starts_with data' sub'
  end.

Fixpoint find_from (data sub : list byte) (start : Z) : Z :=
  if starts_with data sub then start
  else
    match data with
    | [] => -1
    | _ :: rest => find_from rest sub (start + 1)
    end.

(** [data.find(sub, 0)]: the lowest index where [sub] occurs, or [-1]. *)
Definition bytes_find (data sub : list byte) : Z := find_from data sub 0.

(** [file.seek(offset); file.write(rp)] on a file holding [data]. *)
Definition write_at (data : list byte) (offset : Z) (rp : list byte) : list byte :=
  let o := Z.to_nat offset in
  firstn o data ++ rp ++ skipn (o + List.length rp) data.

(** [hex(offset)]. *)
Definition hex (n : Z) : string := HexString.of_Z n.

(** The first [try] of [edit_exe] (lines 136-147): the side file, when it
    can be read, replaces the search pattern by its first line. *)
Definition read_sidecar (search_pattern : string) (sp1 : list byte) (w : world)
  : result (string * list byte) * world :=
  match sidecar w with
  | Contents text =>
      let w := print "patch.txt found" w in
      match readlines text with
      | [] => (Raise IndexError, w)
      | line :: _ =>
          let search_pattern := strip line in
          let w := print ("Will search for pattern: " ++ search_pattern) w in
          match parse_signature search_pattern with
          | Ok sp1 => (Ok (search_pattern, sp1), w)
          | Raise e => (Raise e, w)
          end
      end
  | Missing =>
      let w := print "patch.txt not found" w in
      let w := print ("Will search using default pattern: " ++ search_pattern) w in
      (Ok (search_pattern, sp1), w)
  | Unavailable e =>
      (Ok (search_pattern, sp1), print ("IO Error with file: " ++ e) w)
  end.

(** The second [try] of [edit_exe] (lines 149-166), with the value the
    function returns: Python's [None] is [None], an [int] is [Some]. *)
Definition search_and_replace
    (game_path search_pattern replace_pattern : string) (sp1 rp : list byte)
    (w : world) : option Z * world :=
  match exe w with
  | Missing => (None, print ("Error: File '" ++ game_path ++ "' not found") w)
  | Unavailable e => (None, print ("IO Error with file: " ++ e) w)
  | Contents data =>
      let offset := bytes_find data sp1 in
      if offset =? -1 then
        let w := print ("Cannot find: " ++ search_pattern) w in
        let w := print "Delete and reinstall game and try again" w in
        (None, w)
      else
        let w := print ("Found: " ++ search_pattern ++ " @ 0x" ++ hex offset) w in
        let w := set_exe (Contents (write_at data offset rp)) w in
        let w := print ("Replaced with: " ++ replace_pattern ++ " @ 0x" ++ hex offset) w in
        match sidecar w with
        | Unavailable e => (None, print ("IO Error with file: " ++ e) w)
        | _ => (None, set_sidecar (Contents replace_pattern) w)
        end
  end.

Definition edit_exe (game_path search_pattern replace_pattern : string) (w : world)
  : result (option Z) * world :=
  let search_pattern := strip search_pattern in
  match parse_signature search_pattern with
  | Raise e => (Raise e, w)
  | Ok sp1 =>
      match parse_signature replace_pattern with
      | Raise e => (Raise e, w)
      | Ok rp =>
          match read_sidecar search_pattern sp1 w with
          | (Raise e, w) => (Raise e, w)
          | (Ok (search_pattern, sp1), w) =>
              let (r, w) :=
                search_and_replace game_path search_pattern replace_pattern sp1 rp w in
              (Ok r, w)
          end
      end
  end.

(** ** The tool *)

(** What [read_yaml] meets at [ValkyriaChroniclesFix.yml]: no file, a
    file that is no YAML ([e] is the text of the error), a file that
    [safe_load] reads as [None], or a mapping whose [resolution] has
    integer [width] and [height].  These are the configurations of the
    tool's interface.  A document of another shape (a key that is
    missing, a value that is no integer) and a file that [open] refuses
    for another reason than its absence make [patch] raise before it
    calls [edit_exe]; they are no case of this type, and the properties
    of [patch] below are stated for the cases it has. *)
Inductive yaml_file : Type :=
| YamlMissing
| YamlInvalid (e : string)
| YamlNone
| YamlResolution (width height : Z).

Definition yaml_path : string := "ValkyriaChroniclesFix.yml".

Definition read_yaml (yml : yaml_file) (w : world) : option (Z * Z) * world :=
  match yml with
  | YamlMissing => (None, print ("Error: File '" ++ yaml_path ++ "' not found.") w)
  | YamlInvalid e => (None, print ("Error parsing YAML file: " ++ e) w)
  | YamlNone => (None, w)
  | YamlResolution width height => (Some (width, height), w)
  end.

(** [str(n)] for an [int]. *)
Definition str (n : Z) : string := NilZero.string_of_int (Z.to_int n).

Definition patch (game_exe : string) (yml : yaml_file) (monitors : list monitor)
    (w : world) : result (option Z) * world :=
  match read_yaml yml w with
  | (None, w) => (Ok None, w)
  | (Some (width, height), w) =>
      let w := print ("YAML: resolution: width:  " ++ str width) w in
      let w := print ("YAML: resolution: height: " ++ str height) w in
      match get_desktop_resolution monitors with
      | Raise e => (Raise e, w)
      | Ok (desktop_width, desktop_height) =>
          match compute_patch width height desktop_width desktop_height with
          | Raise e => (Raise e, w)
          | Ok replace_pattern =>
              match edit_exe game_exe search_pattern1 replace_pattern w with
              | (Raise e, w) => (Raise e, w)
              | (Ok _, w) => (Ok None, w)
              end
          end
      end
  end.

(** * Vocabulary of the properties *)

Fixpoint no_space (s : string) : bool :=
  match s with
  | EmptyString => true
  | String c r => negb (isspace c) && no_space r
  end.

(** A token as [split] produces them: not empty, no white space. *)
Definition is_token (t : string) : bool := negb (is_empty t) && no_space t.

(** The token is accepted by [int(token, 16)] and its value fits a byte. *)
Definition valid_hex_byte (token : string) : bool :=
  match int16 token with
  | Some v => (0 <=? v) && (v <? 256)
  | None => false
  end.

(** What [parse_signature] makes of one token. *)
Definition decodes_to (token : string) (b : byte) : Prop :=
  if is_wildcard token then b = x00
  else exists v, int16 token = Some v /\ byte_of_int v = Some b.

Definition accepted (token : string) : bool :=
  is_wildcard token || valid_hex_byte token.

Definition is_hex_digit (c : ascii) : bool :=
  match hex_digit_value c with
  | Some _ => true
  | None => false
  end.

(** One of [0-9A-F]: what [{byte:02X}] writes. *)
Definition is_upper_hex_digit (c : ascii) : bool :=
  let n := N_of_ascii c in
  (((48 <=? n) && (n <=? 57)) || ((65 <=? n) && (n <=? 70)))%N.

(** A token of two hexadecimal digits, of either case. *)
Definition two_hex (t : string) : bool :=
  match t with
  | String a (String b EmptyString) => is_hex_digit a && is_hex_digit b
  | _ => false
  end.

(** A token of two digits among [0-9A-F]. *)
Definition two_upper_hex (t : string) : bool :=
  match t with
  | String a (String b EmptyString) => is_upper_hex_digit a && is_upper_hex_digit b
  | _ => false
  end.

(** The byte a token stands for in [parse_signature]. *)
Definition token_byte (t : string) : byte :=
  if is_wildcard t then x00
  else match int16 t with
       | Some v => byte_of_Z v
       | None => x00
       end.

(** How a token reads after decoding and formatting again. *)
Definition canonical (t : string) : string :=
  if is_wildcard t then "00" else t.

Definition upper_hex_digits : list ascii :=
  list_ascii_of_string "0123456789ABCDEF".

Definition hex_digits : list ascii :=
  list_ascii_of_string "0123456789abcdefABCDEF".

Definition round_trip_token (t : string) : bool := two_upper_hex t || is_wildcard t.

(** [int.from_bytes(bs, byteorder="little", signed=False)]: the reading
    of an encoding, used to state what [to_bytes] wrote. *)
Fixpoint from_bytes_le (bs : list byte) : Z :=
  match bs with
  | [] => 0
  | b :: rest => Z.of_N (Byte.to_N b) + 256 * from_bytes_le rest
  end.

(** The bytes the replacement pattern stands for: six [mov] instructions
    with their immediates and a [nop]. *)
Definition layout (width special offset height : list byte) : list byte :=
  xb8 :: width ++ xbb :: special ++ xb9 :: offset ++ xba :: width
  ++ xbe :: height ++ xbf :: width ++ [x90].

Fixpoint all_chars (p : ascii -> bool) (s : string) : bool :=
  match s with
  | EmptyString => true
  | String c r => p c && all_chars p r
  end.

Definition no_newline (c : ascii) : bool :=
  negb (Ascii.eqb c CR) && negb (Ascii.eqb c LF).

(** The upper case form of a hexadecimal digit; other characters are
    left alone. *)
Definition upper_hex_char (c : ascii) : ascii :=
  let n := N_of_ascii c in
  if ((97 <=? n) && (n <=? 102))%N then ascii_of_N (n - 32) else c.

Fixpoint upper_hex (s : string) : string :=
  match s with
  | EmptyString => EmptyString
  | String c r => String (upper_hex_char c) (upper_hex r)
  end.

(** The executable cannot be opened: there is no file, or [open] fails. *)
Definition cannot_open {A : Type} (f : file A) : Prop :=
  match f with
  | Contents _ => False
  | _ => True
  end.


















(** * Properties *)

(** ** Bytes and hexadecimal digits *)

Lemma byte_of_int_to_N (b : byte) : byte_of_int (Z.of_N (Byte.to_N b)) = Some b.
Proof. destruct b; reflexivity. Qed.

Lemma byte_of_int_range (v : Z) (b : byte) :
  byte_of_int v = Some b -> 0 <= v < 256 /\ Z.of_N (Byte.to_N b) = v.
Proof.
  unfold byte_of_int. intros H.
  destruct (0 <=? v) eqn:H0; [|discriminate].
  destruct (v <? 256) eqn:H1; [|discriminate]. cbn [andb] in H.
  apply Byte.to_of_N in H. rewrite H. lia.
Qed.

Lemma byte_of_int_Some (v : Z) :
  0 <= v < 256 -> exists b, byte_of_int v = Some b.
Proof.
  intros Hv. unfold byte_of_int.
  replace (0 <=? v) with true by lia. replace (v <? 256) with true by lia.
  cbn [andb]. destruct (Byte.of_N (Z.to_N v)) as [b|] eqn:E; [now exists b|].
  apply Byte.of_N_None_iff in E. lia.
Qed.

Lemma int16_format_02X (b : byte) :
  int16 (format_02X b) = Some (Z.of_N (Byte.to_N b)).
Proof. destruct b; reflexivity. Qed.

Lemma is_wildcard_format_02X (b : byte) : is_wildcard (format_02X b) = false.
Proof. destruct b; reflexivity. Qed.

(** ** Tokens, [split] and [join] *)

Lemma append_empty_r (s : string) : (s ++ "")%string = s.
Proof. induction s as [|c s IH]; cbn; [reflexivity | now rewrite IH]. Qed.

Lemma split_aux_append (t s : string) :
  no_space t = true ->
  split_aux (t ++ s) = (let (t', ts) := split_aux s in ((t ++ t')%string, ts)).
Proof.
  induction t as [|c t IH]; cbn [no_space append split_aux]; intros H.
  - now destruct (split_aux s).
  - apply andb_prop in H as [Hc Ht]. rewrite (IH Ht).
    destruct (split_aux s) as [t' ts]. apply negb_true_iff in Hc. now rewrite Hc.
Qed.

Lemma join_cons2 (sep t t' : string) (toks : list string) :
  join sep (t :: t' :: toks) = (t ++ sep ++ join sep (t' :: toks))%string.
Proof. reflexivity. Qed.

Lemma split_aux_join (toks : list string) :
  Forall (fun t => is_token t = true) toks ->
  split_aux (join " " toks) = (hd "" toks, tl toks).
Proof.
  induction 1 as [|t toks Ht Hall IH]; [reflexivity|].
  unfold is_token in Ht. apply andb_prop in Ht as [_ Ht].
  destruct toks as [|t' toks].
  - change (join " " [t]) with t. rewrite <- (append_empty_r t) at 1.
    rewrite (split_aux_append _ _ Ht). cbn. now rewrite append_empty_r.
  - rewrite join_cons2, (split_aux_append _ _ Ht).
    change (" " ++ join " " (t' :: toks))%string
      with (String " " (join " " (t' :: toks))).
    cbn [split_aux]. rewrite IH. cbn [hd tl].
    replace (isspace " ") with true by reflexivity.
    inversion Hall as [|? ? Ht' _]; subst. unfold is_token in Ht'.
    apply andb_prop in Ht' as [Hne _]. unfold cons_token.
    destruct (is_empty t'); [discriminate|]. now rewrite append_empty_r.
Qed.

(** Joining tokens with single spaces and splitting again is the identity. *)
Lemma split_join (toks : list string) :
  Forall (fun t => is_token t = true) toks ->
  split (join " " toks) = toks.
Proof.
  intros H. unfold split. rewrite (split_aux_join _ H).
  destruct H as [|t toks Ht _]; [reflexivity|]. cbn [hd tl]. unfold cons_token.
  unfold is_token in Ht. apply andb_prop in Ht as [Hne _].
  now destruct (is_empty t).
Qed.

Lemma is_token_format_02X (b : byte) : is_token (format_02X b) = true.
Proof. destruct b; reflexivity. Qed.

(** ** Decoding what the formatter wrote *)

Lemma byte_array_of_format (bs : list byte) :
  byte_array_of (map format_02X bs) = Ok (map (fun b => Z.of_N (Byte.to_N b)) bs).
Proof.
  induction bs as [|b bs IH]; [reflexivity|].
  cbn [map byte_array_of]. rewrite is_wildcard_format_02X, int16_format_02X, IH.
  reflexivity.
Qed.

Lemma bytes_of_to_N (bs : list byte) :
  bytes_of (map (fun b => Z.of_N (Byte.to_N b)) bs) = Ok bs.
Proof.
  induction bs as [|b bs IH]; [reflexivity|].
  cbn [map bytes_of]. now rewrite byte_of_int_to_N, IH.
Qed.

(** [parse_signature] inverts the formatter on every [bytes] object. *)
Lemma parse_signature_hex_join (bs : list byte) :
  parse_signature (hex_join bs) = Ok bs.
Proof.
  unfold parse_signature, hex_join. rewrite split_join.
  - rewrite byte_array_of_format. cbn [bind]. apply bytes_of_to_N.
  - apply Forall_forall. intros t Ht. apply in_map_iff in Ht as [b [<- _]].
    apply is_token_format_02X.
Qed.

(** ** The signature codec on its tokens *)




(** Either every token is accepted and the bytes are their decodings, or
    some token is refused and the call raises [ValueError]. *)
Lemma parse_tokens_cases (toks : list string) :
  (exists bs, (byte_array <- byte_array_of toks ;; bytes_of byte_array) = Ok bs
              /\ Forall2 decodes_to toks bs)
  \/ ((byte_array <- byte_array_of toks ;; bytes_of byte_array) = Raise ValueError
      /\ Exists (fun t => accepted t = false) toks).
Proof.
  induction toks as [|t toks IH].
  - left. exists []. split; [reflexivity | constructor].
  - cbn [byte_array_of]. unfold accepted, valid_hex_byte, decodes_to in *.
    destruct (is_wildcard t) eqn:Hw.
    + cbn [bind orb]. destruct IH as [(bs & Hbs & Hd) | (Hr & Hex)].
      * left. exists (x00 :: bs). destruct (byte_array_of toks) as [vs|e]; [|discriminate].
        cbn [bind bytes_of] in *. change (byte_of_int 0) with (Some x00). rewrite Hbs.
        split; [reflexivity|]. constructor; [now rewrite Hw | exact Hd].
      * right. split; [|now apply Exists_cons_tl].
        destruct (byte_array_of toks) as [vs|e]; cbn [bind bytes_of] in *; [|exact Hr].
        change (byte_of_int 0) with (Some x00). now rewrite Hr.
    + cbn [orb]. destruct (int16 t) as [v|] eqn:Hv.
      2:{ right. split; [reflexivity|]. apply Exists_cons_hd. now rewrite Hw, Hv. }
      cbn [bind]. destruct (byte_of_int v) as [b|] eqn:Hb.
      * assert (Hin : (0 <=? v) && (v <? 256) = true)
          by (apply byte_of_int_range in Hb; lia).
        destruct IH as [(bs & Hbs & Hd) | (Hr & Hex)].
        -- left. exists (b :: bs). destruct (byte_array_of toks) as [vs|e]; [|discriminate].
           cbn [bind bytes_of] in *. rewrite Hb, Hbs. split; [reflexivity|].
           constructor; [rewrite Hw; eauto | exact Hd].
        -- right. split; [|now apply Exists_cons_tl].
           destruct (byte_array_of toks) as [vs|e]; cbn [bind bytes_of] in *; [|exact Hr].
           now rewrite Hb, Hr.
      * right. assert (Hout : (0 <=? v) && (v <? 256) = false).
        { destruct ((0 <=? v) && (v <? 256)) eqn:E; [|reflexivity].
          destruct (byte_of_int_Some v) as [b Hb']; [lia | congruence]. }
        split; [|apply Exists_cons_hd; now rewrite Hw, Hv].
        destruct (byte_array_of toks) as [vs|e] eqn:Hvs; cbn [bind bytes_of].
        -- now rewrite Hb.
        -- destruct IH as [(bs & Hbs & _) | (Hr & _)]; cbn [bind] in *; congruence.
Qed.


(** ** Round trip through the codec *)

Ltac split_ascii c :=
  let b0 := fresh in let b1 := fresh in let b2 := fresh in let b3 := fresh in
  let b4 := fresh in let b5 := fresh in let b6 := fresh in let b7 := fresh in
  destruct c as [b0 b1 b2 b3 b4 b5 b6 b7];
  destruct b0, b1, b2, b3, b4, b5, b6, b7.

Ltac in_list := repeat (first [left; reflexivity | right]).

Lemma is_upper_hex_digit_In (c : ascii) :
  is_upper_hex_digit c = true -> In c upper_hex_digits.
Proof.
  split_ascii c; intros H; vm_compute in H; try discriminate H;
    cbn [upper_hex_digits list_ascii_of_string In]; in_list.
Qed.

Lemma is_hex_digit_In (c : ascii) : is_hex_digit c = true -> In c hex_digits.
Proof.
  split_ascii c; intros H; vm_compute in H; try discriminate H;
    cbn [hex_digits list_ascii_of_string In]; in_list.
Qed.

Ltac by_cases H :=
  repeat (destruct H as [<- | H]); [.. | destruct H].

(** A token of two upper case digits is what the formatter writes for
    the byte it stands for. *)
Lemma format_token_byte (t : string) :
  two_upper_hex t = true -> format_02X (token_byte t) = t.
Proof.
  destruct t as [|a [|b [|]]]; try discriminate. cbn [two_upper_hex]. intros H.
  apply andb_prop in H as [Ha Hb].
  apply is_upper_hex_digit_In in Ha, Hb.
  cbn [upper_hex_digits list_ascii_of_string In] in Ha, Hb.
  by_cases Ha; by_cases Hb; reflexivity.
Qed.

Lemma two_upper_hex_not_wildcard (t : string) :
  two_upper_hex t = true -> is_wildcard t = false.
Proof.
  intros H. rewrite <- (format_token_byte t H). apply is_wildcard_format_02X.
Qed.

(** Two hexadecimal digits, of either case, are a valid hexadecimal byte. *)
Lemma two_hex_valid (t : string) :
  two_hex t = true -> is_wildcard t = false /\ valid_hex_byte t = true.
Proof.
  destruct t as [|a [|b [|]]]; try discriminate. cbn [two_hex]. intros H.
  apply andb_prop in H as [Ha Hb].
  apply is_hex_digit_In in Ha, Hb.
  cbn [hex_digits list_ascii_of_string In] in Ha, Hb.
  by_cases Ha; by_cases Hb; split; reflexivity.
Qed.

Lemma round_trip_token_step (t : string) :
  round_trip_token t = true ->
  is_token t = true
  /\ format_02X (token_byte t) = canonical t
  /\ (if is_wildcard t then Ok 0
      else match int16 t with
           | Some v => Ok v
           | None => Raise ValueError
           end) = Ok (Z.of_N (Byte.to_N (token_byte t))).
Proof.
  unfold round_trip_token. intros H. apply orb_prop in H as [H|H].
  - pose proof (format_token_byte t H) as Hf.
    pose proof (two_upper_hex_not_wildcard t H) as Hw.
    unfold canonical. rewrite Hw. repeat split.
    + rewrite <- Hf. apply is_token_format_02X.
    + exact Hf.
    + rewrite <- Hf at 1. now rewrite int16_format_02X.
  - unfold is_wildcard in H. apply orb_prop in H as [H|H];
      apply String.eqb_eq in H; subst t; repeat split; reflexivity.
Qed.

Lemma byte_array_of_round_trip (toks : list string) :
  Forall (fun t => round_trip_token t = true) toks ->
  byte_array_of toks = Ok (map (fun b => Z.of_N (Byte.to_N b)) (map token_byte toks)).
Proof.
  induction 1 as [|t toks Ht _ IH]; [reflexivity|].
  cbn [byte_array_of map]. apply round_trip_token_step in Ht as (_ & _ & ->).
  now rewrite IH.
Qed.

(** Decoding then formatting a string of upper case tokens and wild
    cards gives the canonical tokens back. *)
Lemma round_trip_canonical (toks : list string) :
  Forall (fun t => round_trip_token t = true) toks ->
  parse_signature (join " " toks) = Ok (map token_byte toks)
  /\ hex_join (map token_byte toks) = join " " (map canonical toks).
Proof.
  intros H. split.
  - unfold parse_signature. rewrite split_join.
    + rewrite (byte_array_of_round_trip _ H). cbn [bind]. apply bytes_of_to_N.
    + eapply Forall_impl; [|exact H]. intros t Ht.
      now apply round_trip_token_step in Ht.
  - unfold hex_join. f_equal. rewrite map_map. apply map_ext_in.
    intros t Ht. rewrite Forall_forall in H.
    now destruct (round_trip_token_step t (H t Ht)) as (_ & Hf & _).
Qed.

(** C9, as amended.  For every signature string made of tokens of two
    upper case hexadecimal digits ([0-9A-F]) and of wild cards, separated
    by single spaces, [parse_signature] succeeds, and formatting its bytes
    with [{byte:02X}] joined by spaces gives the string back with every
    wild card replaced by [00]; with no wild card it is the original
    string. *)
Theorem decode_encode_round_trip (toks : list string) :
  Forall (fun t => two_upper_hex t || is_wildcard t = true) toks ->
  exists bs,
    parse_signature (join " " toks) = Ok bs
    /\ hex_join bs = join " " (map canonical toks)
    /\ (Forall (fun t => two_upper_hex t = true) toks ->
        hex_join bs = join " " toks).
Proof.
  intros H. destruct (round_trip_canonical toks H) as [Hp Hf].
  exists (map token_byte toks). repeat split; [exact Hp | exact Hf |].
  intros Hup. rewrite Hf. f_equal. rewrite <- (map_id toks) at 2.
  apply map_ext_in. intros t Ht. rewrite Forall_forall in Hup.
  unfold canonical. now rewrite (two_upper_hex_not_wildcard t (Hup t Ht)).
Qed.

Lemma decode_encode_round_trip_witness :
  Forall (fun t => two_upper_hex t || is_wildcard t = true) ["B8"; "??"; "8E"; "?"]
  /\ exists bs,
       parse_signature "B8 ?? 8E ?" = Ok bs
       /\ hex_join bs = "B8 00 8E 00"
       /\ (Forall (fun t => two_upper_hex t = true) ["B8"; "??"; "8E"; "?"] ->
           hex_join bs = "B8 ?? 8E ?").
Proof.
  split; [repeat constructor|].
  apply (decode_encode_round_trip ["B8"; "??"; "8E"; "?"]). repeat constructor.
Defined.

(** The string [ab] is one token of two hexadecimal digits; it decodes to
    the byte 0xAB, which is formatted as [AB], not as [ab]. *)
Lemma lower_case_round_trip_differs :
  ~ (forall toks : list string,
        Forall (fun t => two_hex t = true) toks ->
        forall bs, parse_signature (join " " toks) = Ok bs ->
                   hex_join bs = join " " toks).
Proof.
  intros H. specialize (H ["ab"] ltac:(repeat constructor) [xab] eq_refl).
  discriminate H.
Qed.

(** ** Tokens and numerals, declaratively *)













(** ** Numerals *)
























(** ** The patch calculator *)

Lemma byte_of_Z_value (v : Z) : Z.of_N (Byte.to_N (byte_of_Z v)) = v mod 256.
Proof.
  unfold byte_of_Z. pose proof (Z.mod_pos_bound v 256 ltac:(lia)) as Hm.
  destruct (Byte.of_N (Z.to_N (v mod 256))) as [b|] eqn:E.
  - apply Byte.to_of_N in E. rewrite E. lia.
  - apply Byte.of_N_None_iff in E. lia.
Qed.

Lemma length_le_bytes (k : nat) (n : Z) : List.length (le_bytes k n) = k.
Proof. revert n. induction k as [|k IH]; intros n; cbn; [reflexivity | now rewrite IH]. Qed.

Lemma from_bytes_le_le_bytes (k : nat) (n : Z) :
  0 <= n < 256 ^ Z.of_nat k -> from_bytes_le (le_bytes k n) = n.
Proof.
  revert n. induction k as [|k IH]; intros n Hn.
  - cbn in *. lia.
  - cbn [le_bytes from_bytes_le]. rewrite byte_of_Z_value.
    rewrite Nat2Z.inj_succ, Z.pow_succ_r in Hn by lia.
    rewrite IH.
    + pose proof (Z.div_mod n 256 ltac:(lia)). lia.
    + split; [apply Z.div_pos; lia | apply Z.div_lt_upper_bound; lia].
Qed.

Lemma from_bytes_le_le_bytes4 (n : Z) :
  0 <= n < 2 ^ 32 -> from_bytes_le (le_bytes 4 n) = n.
Proof. intros Hn. apply (from_bytes_le_le_bytes 4). exact Hn. Qed.

Lemma to_bytes4_Ok (n : Z) :
  0 <= n < 2 ^ 32 -> to_bytes4 n = Ok (le_bytes 4 n).
Proof.
  intros Hn. unfold to_bytes4.
  replace (n <? 0) with false by lia. now replace (2 ^ 32 <=? n) with false by lia.
Qed.

Lemma to_bytes4_negative (n : Z) : n < 0 -> to_bytes4 n = Raise OverflowError.
Proof. intros Hn. unfold to_bytes4. now replace (n <? 0) with true by lia. Qed.

(** Below [2^53] in magnitude the quotient by 2 is a binary64 number, and
    [int(n / 2)] is the quotient truncated toward zero. *)
Lemma int_truediv2_quot (n : Z) :
  Z.abs n < 2 ^ 53 -> int_truediv2 n = Ok (Z.quot n 2).
Proof.
  intros Hn. unfold int_truediv2.
  assert (Hs : Z.max 0 (Z.log2 (Z.abs n) + 1 - 53) = 0).
  { destruct (Z.eq_dec (Z.abs n) 0) as [->|Hz]; [reflexivity|].
    assert (Z.log2 (Z.abs n) < 53) by (apply Z.log2_lt_pow2; lia). lia. }
  rewrite Hs. unfold round_half_even.
  change (2 ^ 0) with 1. rewrite Z.div_1_r, Z.mod_1_r. cbn [Z.mul Z.ltb Z.compare].
  rewrite Z.mul_1_r.
  replace (2 ^ 1025 <=? Z.abs n) with false.
  - f_equal. rewrite Z.quot_div by lia. change (Z.sgn 2) with 1.
    change (Z.abs 2) with 2. lia.
  - symmetry. apply Z.leb_gt. eapply Z.lt_trans; [exact Hn|]. reflexivity.
Qed.

Lemma to_bytes4_cases (n : Z) :
  (0 <= n < 2 ^ 32 /\ to_bytes4 n = Ok (le_bytes 4 n))
  \/ (~ 0 <= n < 2 ^ 32 /\ to_bytes4 n = Raise OverflowError).
Proof.
  unfold to_bytes4. destruct (n <? 0) eqn:H0; [right; split; [lia | reflexivity]|].
  destruct (2 ^ 32 <=? n) eqn:H1; [right; split; [lia | reflexivity]|].
  left. split; [lia | reflexivity].
Qed.

Lemma quot2_in_range (x : Z) :
  0 <= Z.quot x 2 < 4294967296 <-> -1 <= x < 8589934592.
Proof.
  rewrite Z.quot_div by lia. change (Z.sgn 2) with 1. change (Z.abs 2) with 2.
  pose proof (Z.div_mod (Z.abs x) 2 ltac:(lia)).
  pose proof (Z.mod_pos_bound (Z.abs x) 2 ltac:(lia)).
  destruct (Z.lt_trichotomy x 0) as [Hx|[Hx|Hx]].
  - rewrite Z.sgn_neg by lia. lia.
  - subst x. cbn. lia.
  - rewrite Z.sgn_pos by lia. lia.
Qed.




(** C1, as amended.  When the desktop width and the width differ by less
    than [2^53], the centring value is their difference divided by 2 and
    truncated toward zero; that is the floor when the width does not
    exceed the desktop width.  When the value is at least 0 and below
    [2^32], its encoding is four bytes whose little-endian reading is the
    value. *)
Theorem offset_truncates_and_encodes (desktop_width width : Z) :
  Z.abs (desktop_width - width) < 2 ^ 53 ->
  exists offset,
    compute_offset desktop_width width = Ok offset
    /\ offset = Z.quot (desktop_width - width) 2
    /\ (width <= desktop_width -> offset = (desktop_width - width) / 2)
    /\ (0 <= offset < 2 ^ 32 ->
        exists enc, to_bytes4 offset = Ok enc
                    /\ List.length enc = 4%nat
                    /\ from_bytes_le enc = offset).
Proof.
  intros Hd. exists (Z.quot (desktop_width - width) 2).
  unfold compute_offset. rewrite (int_truediv2_quot _ Hd).
  repeat split.
  - intros Hle. apply Z.quot_div_nonneg; lia.
  - intros Hr. exists (le_bytes 4 (Z.quot (desktop_width - width) 2)).
    rewrite (to_bytes4_Ok _ Hr). repeat split.
    apply from_bytes_le_le_bytes4. exact Hr.
Qed.

Lemma offset_truncates_and_encodes_witness :
  Z.abs (5120 - 1920) < 2 ^ 53
  /\ exists offset,
       compute_offset 5120 1920 = Ok offset
       /\ offset = Z.quot (5120 - 1920) 2
       /\ (1920 <= 5120 -> offset = (5120 - 1920) / 2)
       /\ (0 <= offset < 2 ^ 32 ->
           exists enc, to_bytes4 offset = Ok enc
                       /\ List.length enc = 4%nat
                       /\ from_bytes_le enc = offset).
Proof.
  split; [reflexivity|]. apply (offset_truncates_and_encodes 5120 1920). reflexivity.
Defined.

(** With a desktop 1920 wide and a configured width of 1923 the centring
    value is -1, not the floor -2 of -3/2, and its encoding raises
    [OverflowError] instead of giving the bytes of [-1 mod 2^32]. *)
Lemma negative_offset_not_floor_nor_wrapped :
  ~ (exists offset,
        compute_offset 1920 1923 = Ok offset
        /\ offset = (1920 - 1923) / 2
        /\ (offset < 0 -> to_bytes4 offset = Ok (le_bytes 4 (offset mod 2 ^ 32)))).
Proof.
  intros (offset & Ho & Hf & _). vm_compute in Ho, Hf. congruence.
Qed.

(** A negative centring value is never encoded: [to_bytes] is called with
    [signed=False]. *)
Lemma negative_offset_raises (desktop_width width : Z) :
  Z.abs (desktop_width - width) < 2 ^ 53 ->
  desktop_width - width <= -2 ->
  exists offset, compute_offset desktop_width width = Ok offset
                 /\ offset < 0 /\ to_bytes4 offset = Raise OverflowError.
Proof.
  intros Hd Hneg. exists (Z.quot (desktop_width - width) 2).
  unfold compute_offset. rewrite (int_truediv2_quot _ Hd).
  assert (Z.quot (desktop_width - width) 2 < 0).
  { rewrite Z.quot_div by lia. change (Z.sgn 2) with 1. change (Z.abs 2) with 2.
    assert (1 <= Z.abs (desktop_width - width) / 2)
      by (apply Z.div_le_lower_bound; lia). lia. }
  repeat split; [assumption | now apply to_bytes4_negative].
Qed.

Lemma compute_offset_same (w : Z) : compute_offset w w = Ok 0.
Proof. unfold compute_offset. now rewrite Z.sub_diag. Qed.

(** C7.  When the configured width or the configured height is 0, the
    calculator works on the desktop's width and height: the pattern is the
    one computed from the desktop resolution, the offset is 0 and the
    special value is the desktop height shifted left by 4.  With (0,0)
    configured and a (1920,1080) desktop: (1920,1080), offset 0 and
    special [1080 << 4]. *)
Theorem zero_selects_desktop_resolution
    (width height desktop_width desktop_height : Z) :
  width = 0 \/ height = 0 ->
  resolve width height desktop_width desktop_height = (desktop_width, desktop_height)
  /\ compute_offset desktop_width
       (fst (resolve width height desktop_width desktop_height)) = Ok 0
  /\ compute_special (snd (resolve width height desktop_width desktop_height))
     = Z.shiftl desktop_height 4
  /\ compute_patch width height desktop_width desktop_height
     = compute_patch desktop_width desktop_height desktop_width desktop_height
  /\ (resolve 0 0 1920 1080 = (1920, 1080)
      /\ compute_offset 1920 (fst (resolve 0 0 1920 1080)) = Ok 0
      /\ compute_special (snd (resolve 0 0 1920 1080)) = Z.shiftl 1080 4).
Proof.
  intros H.
  assert (Hr : resolve width height desktop_width desktop_height
               = (desktop_width, desktop_height)).
  { unfold resolve. destruct H as [-> | ->]; [reflexivity|].
    now rewrite orb_true_r. }
  rewrite Hr. cbn [fst snd]. repeat split; try reflexivity.
  - apply compute_offset_same.
  - unfold compute_patch. rewrite Hr.
    assert (Hr' : resolve desktop_width desktop_height desktop_width desktop_height
                  = (desktop_width, desktop_height)).
    { unfold resolve.
      now destruct ((desktop_width =? 0) || (desktop_height =? 0)). }
    now rewrite Hr'.
Qed.

Lemma zero_selects_desktop_resolution_witness :
  (0 = 0 \/ 1440 = 0)
  /\ resolve 0 1440 1920 1080 = (1920, 1080)
  /\ compute_patch 0 1440 1920 1080
     = Ok "B8 80 07 00 00 BB 80 43 00 00 B9 00 00 00 00 BA 80 07 00 00 BE 38 04 00 00 BF 80 07 00 00 90".
Proof.
  pose proof (zero_selects_desktop_resolution 0 1440 1920 1080 (or_introl eq_refl))
    as (Hr & _ & _ & Hp & _).
  split; [now left|]. split; [exact Hr|]. rewrite Hp. reflexivity.
Defined.

(** ** The replacement pattern *)


(** A pattern that [compute_patch] returns is the formatting of a
    [layout] of four groups of four bytes. *)
Lemma compute_patch_layout (cw ch dw dh : Z) (r : string) :
  compute_patch cw ch dw dh = Ok r ->
  exists w s o h,
    List.length w = 4%nat /\ List.length s = 4%nat
    /\ List.length o = 4%nat /\ List.length h = 4%nat
    /\ r = assemble (hex_join w) (hex_join s) (hex_join o) (hex_join h)
    /\ r = hex_join (layout w s o h).
Proof.
  unfold compute_patch. destruct (resolve cw ch dw dh) as [width height].
  destruct (compute_offset dw width) as [offset|]; [cbn [bind]|discriminate].
  unfold to_bytes4.
  destruct (compute_special height <? 0); [discriminate|].
  destruct (2 ^ 32 <=? compute_special height); [discriminate|]. cbn [bind].
  destruct (width <? 0); [discriminate|].
  destruct (2 ^ 32 <=? width); [discriminate|]. cbn [bind].
  destruct (height <? 0); [discriminate|].
  destruct (2 ^ 32 <=? height); [discriminate|]. cbn [bind].
  destruct (offset <? 0); [discriminate|].
  destruct (2 ^ 32 <=? offset); [discriminate|]. cbn [bind].
  intros [= <-].
  exists (le_bytes 4 width), (le_bytes 4 (compute_special height)),
    (le_bytes 4 offset), (le_bytes 4 height).
  repeat split.
Qed.







(** ** Searching and writing *)

Lemma starts_with_iff (data sub : list byte) :
  starts_with data sub = true <-> exists post, data = sub ++ post.
Proof.
  revert data. induction sub as [|x sub IH]; intros data; cbn [starts_with].
  - split; [intros _; now exists data | now destruct data].
  - destruct data as [|y data]; cbn [starts_with].
    + split; [discriminate | intros [post H]; discriminate H].
    + rewrite andb_true_iff, IH. split.
      * intros [Hxy [post ->]]. apply Byte.byte_dec_bl in Hxy. subst y. now exists post.
      * intros [post [= -> ->]]. split; [now apply Byte.byte_dec_lb | now exists post].
Qed.

(** [find_from] returns [-1] when [sub] does not occur in [data], and
    otherwise [start] plus the length of the shortest prefix before an
    occurrence. *)
Lemma find_from_spec (data sub : list byte) (start : Z) :
  (find_from data sub start = -1
   /\ forall pre post, data <> pre ++ sub ++ post)
  \/ (exists pre post,
         data = pre ++ sub ++ post
         /\ find_from data sub start = start + Z.of_nat (List.length pre)
         /\ forall pre' post', data = pre' ++ sub ++ post' ->
                               (List.length pre <= List.length pre')%nat).
Proof.
  revert start. induction data as [|y data IH]; intros start; cbn [find_from].
  - destruct (starts_with [] sub) eqn:Hs.
    + right. apply starts_with_iff in Hs as [post Hs]. exists [], post.
      cbn. repeat split; [exact Hs | lia | intros; lia].
    + left. split; [reflexivity|]. intros pre post H.
      destruct pre; [|discriminate H]. cbn in H.
      assert (starts_with [] sub = true) by (apply starts_with_iff; now exists post).
      congruence.
  - destruct (starts_with (y :: data) sub) eqn:Hs.
    + right. apply starts_with_iff in Hs as [post Hs]. exists [], post.
      cbn. repeat split; [exact Hs | lia | intros; lia].
    + assert (Hne : forall pre' post', y :: data = pre' ++ sub ++ post' ->
                      exists pre'', pre' = y :: pre'' /\ data = pre'' ++ sub ++ post').
      { intros pre' post' H. destruct pre' as [|z pre''].
        - cbn in H. assert (starts_with (y :: data) sub = true)
            by (apply starts_with_iff; now exists post'). congruence.
        - injection H as <- H. now exists pre''. }
      destruct (IH (start + 1)) as [[Hf Hno] | (pre & post & Hd & Hf & Hmin)].
      * left. split; [exact Hf|]. intros pre' post' H.
        apply Hne in H as (pre'' & _ & H). now apply Hno in H.
      * right. exists (y :: pre), post. repeat split.
        -- now rewrite Hd.
        -- rewrite Hf. cbn [List.length]. lia.
        -- intros pre' post' H. apply Hne in H as (pre'' & -> & H).
           apply Hmin in H. cbn [List.length]. lia.
Qed.

Lemma bytes_find_absent (data sub : list byte) :
  (forall pre post, data <> pre ++ sub ++ post) -> bytes_find data sub = -1.
Proof.
  intros Hno. unfold bytes_find.
  destruct (find_from_spec data sub 0) as [[Hf _] | (pre & post & Hd & _)].
  - exact Hf.
  - now apply Hno in Hd.
Qed.

(** When [sub] occurs, [bytes_find] is the position of its first
    occurrence. *)
Lemma bytes_find_first (data sub pre post : list byte) :
  data = pre ++ sub ++ post ->
  exists pre0 post0,
    data = pre0 ++ sub ++ post0
    /\ bytes_find data sub = Z.of_nat (List.length pre0)
    /\ (List.length pre0 <= List.length pre)%nat.
Proof.
  intros Hd. unfold bytes_find.
  destruct (find_from_spec data sub 0) as [[_ Hno] | (pre0 & post0 & Hd0 & Hf & Hmin)].
  - now apply Hno in Hd.
  - exists pre0, post0. repeat split; [exact Hd0 | rewrite Hf; lia | now apply (Hmin pre post)].
Qed.

(** What [write_at] changes: the bytes from [offset] on are those of
    [rp], all others stay. *)
Lemma write_at_inside (data rp : list byte) (o j : nat) :
  (o <= List.length data)%nat -> (j < List.length rp)%nat ->
  nth_error (write_at data (Z.of_nat o) rp) (o + j) = nth_error rp j.
Proof.
  intros Ho Hj. unfold write_at. rewrite Nat2Z.id.
  rewrite nth_error_app2; rewrite length_firstn, Nat.min_l by lia; [|lia].
  replace (o + j - o)%nat with j by lia. now rewrite nth_error_app1.
Qed.

Lemma write_at_outside (data rp : list byte) (o i : nat) :
  (o <= List.length data)%nat ->
  (i < o \/ o + List.length rp <= i)%nat ->
  nth_error (write_at data (Z.of_nat o) rp) i = nth_error data i.
Proof.
  intros Ho Hi. unfold write_at. rewrite Nat2Z.id. destruct Hi as [Hi|Hi].
  - rewrite nth_error_app1 by (rewrite length_firstn; lia).
    now rewrite nth_error_firstn, (proj2 (Nat.ltb_lt i o) Hi).
  - rewrite nth_error_app2; rewrite length_firstn, Nat.min_l by lia; [|lia].
    rewrite nth_error_app2 by lia. rewrite nth_error_skipn. f_equal. lia.
Qed.

Lemma length_write_at (data rp : list byte) (o : nat) :
  (o <= List.length data)%nat ->
  List.length (write_at data (Z.of_nat o) rp)
  = Nat.max (List.length data) (o + List.length rp).
Proof.
  intros Ho. unfold write_at. rewrite Nat2Z.id.
  rewrite !length_app, length_firstn, length_skipn. lia.
Qed.

(** ** Runs of [edit_exe] *)

Lemma read_sidecar_files (search_pattern : string) (sp1 : list byte) (w : world) :
  exe (snd (read_sidecar search_pattern sp1 w)) = exe w
  /\ sidecar (snd (read_sidecar search_pattern sp1 w)) = sidecar w.
Proof.
  unfold read_sidecar. destruct (sidecar w) as [|e|text] eqn:Hs; cbn.
  - now rewrite Hs.
  - now rewrite Hs.
  - destruct (readlines text) as [|line lines]; cbn; [now rewrite Hs|].
    destruct (parse_signature (strip line)); cbn; now rewrite Hs.
Qed.

(** [edit_exe], once both patterns are decoded and the side file is read. *)
Lemma edit_exe_unfold
    (game_path search_pattern replace_pattern eff : string)
    (sp0 sp1 rp : list byte) (w w1 : world) :
  parse_signature (strip search_pattern) = Ok sp0 ->
  parse_signature replace_pattern = Ok rp ->
  read_sidecar (strip search_pattern) sp0 w = (Ok (eff, sp1), w1) ->
  edit_exe game_path search_pattern replace_pattern w
  = (Ok (fst (search_and_replace game_path eff replace_pattern sp1 rp w1)),
     snd (search_and_replace game_path eff replace_pattern sp1 rp w1)).
Proof.
  intros H0 Hrp Hs. unfold edit_exe. rewrite H0, Hrp, Hs.
  now destruct (search_and_replace game_path eff replace_pattern sp1 rp w1).
Qed.

(** The value [search_and_replace] returns is [None] on every path. *)
Lemma search_and_replace_returns_None
    (game_path search_pattern replace_pattern : string) (sp1 rp : list byte)
    (w : world) :
  fst (search_and_replace game_path search_pattern replace_pattern sp1 rp w) = None.
Proof.
  unfold search_and_replace. destruct (exe w) as [|e|data]; try reflexivity.
  destruct (bytes_find data sp1 =? -1); [reflexivity|].
  cbn [sidecar print set_exe]. now destruct (sidecar w).
Qed.

(** A run that finds the pattern writes the replacement at the offset
    [bytes_find] gave and records the replacement in the side file when
    that can be opened. *)
Lemma search_and_replace_found
    (game_path search_pattern replace_pattern : string) (sp1 rp data : list byte)
    (w : world) :
  exe w = Contents data ->
  bytes_find data sp1 <> -1 ->
  let w' := snd (search_and_replace game_path search_pattern replace_pattern sp1 rp w) in
  exe w' = Contents (write_at data (bytes_find data sp1) rp)
  /\ ((forall e, sidecar w <> Unavailable e) -> sidecar w' = Contents replace_pattern).
Proof.
  intros He Hf. unfold search_and_replace. rewrite He.
  apply Z.eqb_neq in Hf. rewrite Hf. cbn [sidecar print set_exe].
  destruct (sidecar w) as [|e|text] eqn:Hs; cbn; split; try reflexivity.
  intros Hne. now destruct (Hne e).
Qed.

(** C5.  When the executable does not contain the decoded effective
    search pattern, [edit_exe] prints the two "cannot find" lines, returns
    [None], and leaves the executable and the side file as they were. *)
Theorem pattern_not_found_no_write
    (game_path search_pattern replace_pattern eff : string)
    (sp0 sp1 rp data : list byte) (w w1 : world) :
  exe w = Contents data ->
  parse_signature (strip search_pattern) = Ok sp0 ->
  parse_signature replace_pattern = Ok rp ->
  read_sidecar (strip search_pattern) sp0 w = (Ok (eff, sp1), w1) ->
  (forall pre post, data <> pre ++ sp1 ++ post) ->
  exists w',
    edit_exe game_path search_pattern replace_pattern w = (Ok None, w')
    /\ exe w' = Contents data
    /\ sidecar w' = sidecar w
    /\ stdout w' = stdout w1 ++ [("Cannot find: " ++ eff)%string;
                                 "Delete and reinstall game and try again"].
Proof.
  intros He H0 Hrp Hs Hno.
  rewrite (edit_exe_unfold _ _ _ _ _ _ _ _ _ H0 Hrp Hs).
  destruct (read_sidecar_files (strip search_pattern) sp0 w) as [He1 Hs1].
  rewrite Hs in He1, Hs1. cbn [snd] in He1, Hs1.
  unfold search_and_replace. rewrite He1, He, (bytes_find_absent _ _ Hno).
  change (-1 =? -1) with true. cbn iota. cbn [fst snd].
  eexists. split; [reflexivity|].
  cbn [exe sidecar stdout print]. rewrite He1, He, Hs1, <- app_assoc.
  repeat split.
Qed.

Lemma pattern_not_found_no_write_witness :
  let w := World (Contents [x00; x01; x02]) Missing [] in
  exists w',
    edit_exe "../Valkyria.exe" search_pattern1 "B8 00" w = (Ok None, w')
    /\ exe w' = Contents [x00; x01; x02]
    /\ sidecar w' = Missing
    /\ stdout w'
       = ["patch.txt not found";
          "Will search using default pattern: B8 39 8E E3 38 F7 E3 8B FA B8 39 8E E3 38";
          "Cannot find: B8 39 8E E3 38 F7 E3 8B FA B8 39 8E E3 38";
          "Delete and reinstall game and try again"].
Proof.
  intros w.
  refine (pattern_not_found_no_write "../Valkyria.exe" search_pattern1 "B8 00"
            search_pattern1
            [xb8; x39; x8e; xe3; x38; xf7; xe3; x8b; xfa; xb8; x39; x8e; xe3; x38]
            [xb8; x39; x8e; xe3; x38; xf7; xe3; x8b; xfa; xb8; x39; x8e; xe3; x38]
            [xb8; x00] [x00; x01; x02] w _ eq_refl eq_refl eq_refl eq_refl _).
  intros pre post H. apply (f_equal (@List.length byte)) in H.
  rewrite !length_app in H. cbn in H. lia.
Defined.

(** C6.  When the executable contains the decoded effective search
    pattern exactly once, at the end of [pre], [edit_exe] returns after
    writing the replacement there: the [len(rp)] bytes from that offset on
    are those of [rp], and every other byte of the file is unchanged. *)
Theorem single_match_overwrites_replacement_only
    (game_path search_pattern replace_pattern eff : string)
    (sp0 sp1 rp data pre post : list byte) (w w1 : world) :
  exe w = Contents data ->
  parse_signature (strip search_pattern) = Ok sp0 ->
  parse_signature replace_pattern = Ok rp ->
  read_sidecar (strip search_pattern) sp0 w = (Ok (eff, sp1), w1) ->
  data = pre ++ sp1 ++ post ->
  (forall pre' post', data = pre' ++ sp1 ++ post' ->
                      List.length pre' = List.length pre) ->
  exists w' data',
    fst (edit_exe game_path search_pattern replace_pattern w) = Ok None
    /\ snd (edit_exe game_path search_pattern replace_pattern w) = w'
    /\ exe w' = Contents data'
    /\ bytes_find data sp1 = Z.of_nat (List.length pre)
    /\ (forall j, (j < List.length rp)%nat ->
                  nth_error data' (List.length pre + j) = nth_error rp j)
    /\ (forall i, (i < List.length pre \/ List.length pre + List.length rp <= i)%nat ->
                  nth_error data' i = nth_error data i)
    /\ List.length data'
       = Nat.max (List.length data) (List.length pre + List.length rp).
Proof.
  intros He H0 Hrp Hs Hd Huniq.
  rewrite (edit_exe_unfold _ _ _ _ _ _ _ _ _ H0 Hrp Hs). cbn [fst snd].
  destruct (read_sidecar_files (strip search_pattern) sp0 w) as [He1 _].
  rewrite Hs in He1. cbn [snd] in He1. rewrite He in He1.
  destruct (bytes_find_first _ _ _ _ Hd) as (pre0 & post0 & Hd0 & Hf & _).
  rewrite (Huniq _ _ Hd0) in Hf.
  assert (Hlen : (List.length pre <= List.length data)%nat)
    by (rewrite Hd, length_app; lia).
  assert (Hne : bytes_find data sp1 <> -1) by lia.
  destruct (search_and_replace_found game_path eff replace_pattern sp1 rp data w1
              He1 Hne) as [Hexe _].
  rewrite Hf in Hexe.
  exists (snd (search_and_replace game_path eff replace_pattern sp1 rp w1)),
    (write_at data (Z.of_nat (List.length pre)) rp).
  rewrite search_and_replace_returns_None. repeat split.
  - exact Hexe.
  - exact Hf.
  - intros j Hj. now apply write_at_inside.
  - intros i Hi. now apply write_at_outside.
  - now apply length_write_at.
Qed.

(** C4.  Whenever [edit_exe] returns, it returns [None]: also when it has
    found the pattern and written the replacement at [bytes_find]'s
    offset, the offset is not returned. *)
Theorem edit_exe_returns_None_after_write
    (game_path search_pattern replace_pattern eff : string)
    (sp0 sp1 rp data : list byte) (w w1 : world) :
  exe w = Contents data ->
  parse_signature (strip search_pattern) = Ok sp0 ->
  parse_signature replace_pattern = Ok rp ->
  read_sidecar (strip search_pattern) sp0 w = (Ok (eff, sp1), w1) ->
  bytes_find data sp1 <> -1 ->
  fst (edit_exe game_path search_pattern replace_pattern w) = Ok None
  /\ exe (snd (edit_exe game_path search_pattern replace_pattern w))
     = Contents (write_at data (bytes_find data sp1) rp)
  /\ fst (edit_exe game_path search_pattern replace_pattern w)
     <> Ok (Some (bytes_find data sp1)).
Proof.
  intros He H0 Hrp Hs Hne.
  rewrite (edit_exe_unfold _ _ _ _ _ _ _ _ _ H0 Hrp Hs). cbn [fst snd].
  destruct (read_sidecar_files (strip search_pattern) sp0 w) as [He1 _].
  rewrite Hs in He1. cbn [snd] in He1. rewrite He in He1.
  rewrite search_and_replace_returns_None. repeat split.
  - now apply search_and_replace_found.
  - discriminate.
Qed.

Ltac other_prefix H pre' :=
  destruct pre' as [|? pre'];
  [ cbn in H; first [discriminate H | reflexivity]
  | cbn in H; first [discriminate H | injection H as _ H] ].

Lemma single_match_overwrites_replacement_only_witness :
  let w := World (Contents [x00; xaa; xbb; x01]) Missing [] in
  exists w' data',
    fst (edit_exe "../Valkyria.exe" "AA BB" "CC DD" w) = Ok None
    /\ snd (edit_exe "../Valkyria.exe" "AA BB" "CC DD" w) = w'
    /\ exe w' = Contents data'
    /\ bytes_find [x00; xaa; xbb; x01] [xaa; xbb] = 1
    /\ (forall j, (j < 2)%nat -> nth_error data' (1 + j) = nth_error [xcc; xdd] j)
    /\ (forall i, (i < 1 \/ 1 + 2 <= i)%nat ->
                  nth_error data' i = nth_error [x00; xaa; xbb; x01] i)
    /\ List.length data' = 4%nat.
Proof.
  intros w.
  refine (single_match_overwrites_replacement_only "../Valkyria.exe" "AA BB" "CC DD"
            "AA BB" [xaa; xbb] [xaa; xbb] [xcc; xdd] [x00; xaa; xbb; x01]
            [x00] [x01] w _ eq_refl eq_refl eq_refl eq_refl eq_refl _).
  intros pre' post' H.
  other_prefix H pre'. other_prefix H pre'. other_prefix H pre'.
  other_prefix H pre'. other_prefix H pre'.
Defined.

Lemma edit_exe_returns_None_after_write_witness :
  let w := World (Contents [x00; xaa; xbb; x01]) Missing [] in
  bytes_find [x00; xaa; xbb; x01] [xaa; xbb] = 1
  /\ fst (edit_exe "../Valkyria.exe" "AA BB" "CC DD" w) = Ok None
  /\ exe (snd (edit_exe "../Valkyria.exe" "AA BB" "CC DD" w))
     = Contents [x00; xcc; xdd; x01]
  /\ fst (edit_exe "../Valkyria.exe" "AA BB" "CC DD" w) <> Ok (Some 1).
Proof.
  intros w. split; [reflexivity|].
  refine (edit_exe_returns_None_after_write "../Valkyria.exe" "AA BB" "CC DD"
            "AA BB" [xaa; xbb] [xaa; xbb] [xcc; xdd] [x00; xaa; xbb; x01]
            w _ eq_refl eq_refl eq_refl eq_refl _).
  discriminate.
Defined.

(** A side file has no line exactly when it is empty. *)
Lemma readlines_nil_iff (text : string) : readlines text = [] <-> text = "".
Proof.
  split; [|now intros ->]. unfold readlines. intros H.
  destruct text as [|c r]; [reflexivity|]. exfalso.
  assert (Hne : exists c' r', universal_newlines (String c r) = String c' r').
  { cbn [universal_newlines]. destruct (Ascii.eqb c CR); [|eauto].
    destruct r as [|c' r']; [eauto|]. destruct (Ascii.eqb c' LF); eauto. }
  destruct Hne as (c' & r' & Hne). rewrite Hne in H. cbn [lines_aux] in H.
  destruct (lines_aux r') as [l ls]. destruct (Ascii.eqb c' LF); discriminate H.
Qed.

(** C10.  When [patch.txt] exists and has no line, [edit_exe] (called
    with patterns that decode) raises [IndexError] after printing
    [patch.txt found]: nothing else is printed, and the executable and the
    side file are not touched.  A missing or unreadable side file, the two
    cases the [try] handles, raises nothing. *)
Theorem empty_sidecar_raises_IndexError
    (game_path search_pattern replace_pattern text : string)
    (sp0 rp : list byte) (w : world) :
  sidecar w = Contents text ->
  readlines text = [] ->
  parse_signature (strip search_pattern) = Ok sp0 ->
  parse_signature replace_pattern = Ok rp ->
  edit_exe game_path search_pattern replace_pattern w
  = (Raise IndexError, print "patch.txt found" w)
  /\ exe (print "patch.txt found" w) = exe w
  /\ sidecar (print "patch.txt found" w) = sidecar w
  /\ (forall w0 : world,
         sidecar w0 = Missing \/ (exists e, sidecar w0 = Unavailable e) ->
         fst (read_sidecar (strip search_pattern) sp0 w0)
         = Ok (strip search_pattern, sp0)).
Proof.
  intros Hs Hl H0 Hrp. repeat split.
  - unfold edit_exe. rewrite H0, Hrp. unfold read_sidecar. now rewrite Hs, Hl.
  - intros w0 [Hm | [e He]]; unfold read_sidecar; [now rewrite Hm | now rewrite He].
Qed.

Lemma empty_sidecar_raises_IndexError_witness :
  let w := World (Contents [x00; xaa; xbb; x01]) (Contents "") [] in
  edit_exe "../Valkyria.exe" search_pattern1 "CC DD" w
  = (Raise IndexError,
     World (Contents [x00; xaa; xbb; x01]) (Contents "") ["patch.txt found"]).
Proof.
  intros w.
  exact (proj1 (empty_sidecar_raises_IndexError "../Valkyria.exe" search_pattern1
                  "CC DD" ""
                  [xb8; x39; x8e; xe3; x38; xf7; xe3; x8b; xfa; xb8; x39; x8e; xe3; x38]
                  [xcc; xdd] w eq_refl eq_refl eq_refl eq_refl)).
Defined.

(** ** The side file between two runs *)

Lemma all_chars_append (p : ascii -> bool) (s t : string) :
  all_chars p (s ++ t) = all_chars p s && all_chars p t.
Proof.
  induction s as [|c s IH]; cbn [append all_chars]; [reflexivity|].
  now rewrite IH, andb_assoc.
Qed.

Lemma all_chars_join (p : ascii -> bool) (toks : list string) :
  p " "%char = true ->
  Forall (fun t => all_chars p t = true) toks ->
  all_chars p (join " " toks) = true.
Proof.
  intros Hsp. induction 1 as [|t toks Ht Hall IH]; [reflexivity|].
  destruct toks as [|t' toks]; [exact Ht|].
  rewrite join_cons2, !all_chars_append, Ht, IH. cbn. now rewrite Hsp.
Qed.

Lemma no_newline_format_02X (b : byte) : all_chars no_newline (format_02X b) = true.
Proof. destruct b; reflexivity. Qed.

Lemma no_newline_hex_join (bs : list byte) : all_chars no_newline (hex_join bs) = true.
Proof.
  apply all_chars_join; [reflexivity|]. apply Forall_forall. intros t Ht.
  apply in_map_iff in Ht as [b [<- _]]. apply no_newline_format_02X.
Qed.

Lemma universal_newlines_id (s : string) :
  all_chars no_newline s = true -> universal_newlines s = s.
Proof.
  induction s as [|c s IH]; [reflexivity|]. cbn [all_chars universal_newlines].
  intros H. apply andb_prop in H as [Hc Hs]. unfold no_newline in Hc.
  apply andb_prop in Hc as [Hcr _]. apply negb_true_iff in Hcr.
  now rewrite Hcr, (IH Hs).
Qed.

Lemma lines_aux_id (s : string) :
  all_chars no_newline s = true -> lines_aux s = (s, []).
Proof.
  induction s as [|c s IH]; [reflexivity|]. cbn [all_chars lines_aux].
  intros H. apply andb_prop in H as [Hc Hs]. unfold no_newline in Hc.
  apply andb_prop in Hc as [_ Hlf]. apply negb_true_iff in Hlf.
  now rewrite (IH Hs), Hlf.
Qed.

(** A text of one line without line end is read as that one line. *)
Lemma readlines_one_line (s : string) :
  all_chars no_newline s = true -> is_empty s = false -> readlines s = [s].
Proof.
  intros Hs Hne. unfold readlines. rewrite (universal_newlines_id _ Hs).
  rewrite (lines_aux_id _ Hs). unfold cons_token. now rewrite Hne.
Qed.

Lemma rstrip_no_space (t : string) : no_space t = true -> rstrip t = t.
Proof.
  induction t as [|c t IH]; [reflexivity|]. cbn [no_space rstrip]. intros H.
  apply andb_prop in H as [Hc Ht]. apply negb_true_iff in Hc.
  now rewrite Hc, (IH Ht).
Qed.

Lemma rstrip_append (s t : string) :
  rstrip t = t -> is_empty t = false -> rstrip (s ++ t) = (s ++ t)%string.
Proof.
  intros Ht Hne. induction s as [|c s IH]; [exact Ht|].
  cbn [append rstrip]. rewrite IH.
  assert (is_empty (s ++ t) = false) as -> by (destruct s; [exact Hne | reflexivity]).
  now rewrite andb_false_r.
Qed.

Lemma is_empty_join (t : string) (toks : list string) :
  is_empty t = false -> is_empty (join " " (t :: toks)) = false.
Proof.
  intros Hne. destruct toks as [|t' toks]; [exact Hne|].
  rewrite join_cons2. destruct t; [discriminate Hne | reflexivity].
Qed.

(** Tokens joined by single spaces have no white space to strip. *)
Lemma strip_join (toks : list string) :
  Forall (fun t => is_token t = true) toks -> strip (join " " toks) = join " " toks.
Proof.
  intros H. unfold strip.
  assert (Hl : lstrip (join " " toks) = join " " toks).
  { destruct H as [|t toks Ht _]; [reflexivity|].
    unfold is_token in Ht. apply andb_prop in Ht as [Hne Hns].
    destruct t as [|c t]; [discriminate Hne|]. cbn [no_space] in Hns.
    apply andb_prop in Hns as [Hc _]. apply negb_true_iff in Hc.
    destruct toks as [|t' toks]; [cbn; now rewrite Hc|].
    rewrite join_cons2. cbn [append lstrip]. now rewrite Hc. }
  rewrite Hl. induction H as [|t toks Ht Hall IH]; [reflexivity|].
  unfold is_token in Ht. apply andb_prop in Ht as [Hne Hns].
  destruct toks as [|t' toks]; [now apply rstrip_no_space|].
  rewrite join_cons2. apply rstrip_append.
  - apply (rstrip_append " ").
    + apply IH. inversion Hall as [|? ? Ht' _]; subst.
      unfold is_token in Ht'. apply andb_prop in Ht' as [Hne' Hns'].
      destruct t' as [|c' t']; [discriminate Hne'|]. cbn [no_space] in Hns'.
      apply andb_prop in Hns' as [Hc' _]. apply negb_true_iff in Hc'.
      destruct toks as [|t'' toks]; [cbn; now rewrite Hc'|].
      rewrite join_cons2. cbn [append lstrip]. now rewrite Hc'.
    + inversion Hall as [|? ? Ht' _]; subst. apply is_empty_join.
      unfold is_token in Ht'. apply andb_prop in Ht' as [Hne' _].
      now apply negb_true_iff in Hne'.
  - reflexivity.
Qed.

(** The side file a successful run leaves makes the next run search for
    the bytes that run wrote. *)
Lemma read_sidecar_recorded
    (bs : list byte) (search_pattern : string) (sp0 : list byte) (w : world) :
  bs <> [] ->
  sidecar w = Contents (hex_join bs) ->
  fst (read_sidecar search_pattern sp0 w) = Ok (hex_join bs, bs).
Proof.
  intros Hne Hs. unfold read_sidecar. rewrite Hs.
  assert (Htok : Forall (fun t => is_token t = true) (map format_02X bs)).
  { apply Forall_forall. intros t Ht. apply in_map_iff in Ht as [b [<- _]].
    apply is_token_format_02X. }
  rewrite readlines_one_line.
  - unfold hex_join at 1 2. rewrite (strip_join _ Htok). fold (hex_join bs).
    now rewrite parse_signature_hex_join.
  - apply no_newline_hex_join.
  - destruct bs as [|b bs]; [contradiction|]. unfold hex_join. cbn [map].
    apply is_empty_join. now destruct b.
Qed.

(** C3, as amended.  In the call [patch] makes, the default search
    pattern decodes to 14 bytes and every replacement pattern to 31
    bytes, so the replacement is longer than the default search buffer.
    The two buffers have the same length, 31, when the side file holds
    the pattern recorded by a run with the same replacement: the search
    buffer is then the replacement buffer itself. *)
Theorem search_and_replacement_buffer_lengths
    (cw ch desktop_width desktop_height : Z) (replace_pattern : string) :
  compute_patch cw ch desktop_width desktop_height = Ok replace_pattern ->
  exists sp rp,
    parse_signature (strip search_pattern1) = Ok sp
    /\ parse_signature replace_pattern = Ok rp
    /\ List.length sp = 14%nat
    /\ List.length rp = 31%nat
    /\ (forall w : world,
           sidecar w = Contents replace_pattern ->
           fst (read_sidecar (strip search_pattern1) sp w) = Ok (replace_pattern, rp)).
Proof.
  intros Hc.
  destruct (compute_patch_layout _ _ _ _ _ Hc)
    as (wb & sb & ob & hb & Hw & Hs & Ho & Hh & _ & ->).
  exists [xb8; x39; x8e; xe3; x38; xf7; xe3; x8b; xfa; xb8; x39; x8e; xe3; x38],
    (layout wb sb ob hb).
  split; [reflexivity|]. split; [apply parse_signature_hex_join|].
  split; [reflexivity|]. split.
  - destruct wb as [|? [|? [|? [|? [|]]]]]; try discriminate Hw.
    destruct sb as [|? [|? [|? [|? [|]]]]]; try discriminate Hs.
    destruct ob as [|? [|? [|? [|? [|]]]]]; try discriminate Ho.
    destruct hb as [|? [|? [|? [|? [|]]]]]; try discriminate Hh.
    reflexivity.
  - intros w Hside. apply read_sidecar_recorded; [discriminate | exact Hside].
Qed.

Lemma search_and_replacement_buffer_lengths_witness :
  compute_patch 5120 1440 5120 1440
  = Ok "B8 00 14 00 00 BB 00 5A 00 00 B9 00 00 00 00 BA 00 14 00 00 BE A0 05 00 00 BF 00 14 00 00 90"
  /\ exists sp rp,
       parse_signature (strip search_pattern1) = Ok sp
       /\ parse_signature
            "B8 00 14 00 00 BB 00 5A 00 00 B9 00 00 00 00 BA 00 14 00 00 BE A0 05 00 00 BF 00 14 00 00 90"
          = Ok rp
       /\ List.length sp = 14%nat
       /\ List.length rp = 31%nat
       /\ (forall w : world,
              sidecar w
              = Contents "B8 00 14 00 00 BB 00 5A 00 00 B9 00 00 00 00 BA 00 14 00 00 BE A0 05 00 00 BF 00 14 00 00 90" ->
              fst (read_sidecar (strip search_pattern1) sp w)
              = Ok ("B8 00 14 00 00 BB 00 5A 00 00 B9 00 00 00 00 BA 00 14 00 00 BE A0 05 00 00 BF 00 14 00 00 90",
                    rp)).
Proof.
  split; [reflexivity|].
  exact (search_and_replacement_buffer_lengths 5120 1440 5120 1440 _ eq_refl).
Defined.

(** On a 5120x1440 desktop with that resolution configured and no side
    file, [edit_exe] searches with a buffer of 14 bytes and writes one of
    31 bytes: the lengths differ and the replacement is the longer. *)
Lemma default_search_shorter_than_replacement :
  ~ (forall (r : string) (sp rp : list byte),
        compute_patch 5120 1440 5120 1440 = Ok r ->
        parse_signature (strip search_pattern1) = Ok sp ->
        parse_signature r = Ok rp ->
        fst (read_sidecar (strip search_pattern1) sp
               (World (Contents (x00 :: sp ++ rp)) Missing []))
        = Ok (strip search_pattern1, sp) ->
        bytes_find (x00 :: sp ++ rp) sp = 1 ->
        List.length sp = List.length rp
        /\ (List.length rp <= List.length sp)%nat).
Proof.
  intros H.
  specialize (H _ _ _ eq_refl eq_refl eq_refl eq_refl eq_refl) as [H _].
  discriminate H.
Qed.

(** ** The whole tool on an empty side file *)

(** In the call [patch] makes both patterns decode, so an empty
    [patch.txt] makes the tool raise [IndexError] with the executable
    untouched. *)
Lemma patch_empty_sidecar
    (game_exe : string) (cw ch dw dh : Z) (monitors : list monitor)
    (replace_pattern : string) (w : world) :
  get_desktop_resolution monitors = Ok (dw, dh) ->
  compute_patch cw ch dw dh = Ok replace_pattern ->
  sidecar w = Contents "" ->
  exists w',
    patch game_exe (YamlResolution cw ch) monitors w = (Raise IndexError, w')
    /\ exe w' = exe w /\ sidecar w' = sidecar w.
Proof.
  intros Hm Hc Hs. unfold patch. cbn [read_yaml]. rewrite Hm, Hc.
  destruct (compute_patch_layout _ _ _ _ _ Hc)
    as (wb & sb & ob & hb & _ & _ & _ & _ & _ & Hr).
  unfold edit_exe.
  change (parse_signature (strip search_pattern1))
    with (Ok [xb8; x39; x8e; xe3; x38; xf7; xe3; x8b; xfa; xb8; x39; x8e; xe3; x38]).
  rewrite Hr, parse_signature_hex_join.
  unfold read_sidecar. cbn [sidecar print]. rewrite Hs.
  change (readlines "") with (@nil string).
  eexists. split; [reflexivity|]. cbn [exe sidecar print]. now rewrite Hs.
Qed.

(** * Further properties of the code *)

(** ** The signature codec *)

Lemma cons_token_empty (ts : list string) : cons_token "" ts = ts.
Proof. reflexivity. Qed.

Lemma split_lstrip (s : string) : split (lstrip s) = split s.
Proof.
  induction s as [|c s IH]; [reflexivity|]. cbn [lstrip].
  destruct (isspace c) eqn:Hc; [|reflexivity].
  rewrite IH. unfold split. cbn [split_aux]. rewrite Hc.
  now destruct (split_aux s).
Qed.

Lemma split_aux_rstrip (s : string) : split_aux (rstrip s) = split_aux s.
Proof.
  induction s as [|c s IH]; [reflexivity|]. cbn [rstrip].
  destruct (isspace c && is_empty (rstrip s)) eqn:E.
  - apply andb_prop in E as [Hc He]. cbn [split_aux]. rewrite Hc, <- IH.
    destruct (rstrip s); [reflexivity | discriminate He].
  - cbn [split_aux]. now rewrite IH.
Qed.

(** Stripping a signature before decoding it, as [edit_exe] does for the
    search pattern and not for the replacement, changes nothing: white
    space around the tokens is ignored. *)
Theorem parse_signature_ignores_strip (signature : string) :
  split (strip signature) = split signature
  /\ parse_signature (strip signature) = parse_signature signature.
Proof.
  assert (H : split (strip signature) = split signature).
  { unfold strip, split at 1. rewrite split_aux_rstrip.
    fold (split (lstrip signature)). apply split_lstrip. }
  split; [exact H|]. unfold parse_signature. now rewrite H.
Qed.






Lemma split_aux_all_space (s : string) :
  all_chars isspace s = true <-> split_aux s = ("", []).
Proof.
  induction s as [|c s IH]; [split; reflexivity|].
  cbn [all_chars split_aux]. destruct (split_aux s) as [t ts].
  destruct (isspace c) eqn:Hc; cbn [andb].
  - rewrite IH. split.
    + now intros [= -> ->].
    + unfold cons_token. intros [= H]. destruct t; cbn in H; [now subst | discriminate H].
  - split; discriminate.
Qed.

Lemma split_nil_iff (s : string) : split s = [] <-> all_chars isspace s = true.
Proof.
  rewrite split_aux_all_space. unfold split.
  destruct (split_aux s) as [t ts]. unfold cons_token. split.
  - destruct t; cbn; [now intros -> | discriminate].
  - now intros [= -> ->].
Qed.

(** [parse_signature] gives the empty [bytes] exactly for the strings
    that hold white space only (the empty string among them). *)
Theorem parse_signature_empty_iff (signature : string) :
  parse_signature signature = Ok [] <-> all_chars isspace signature = true.
Proof.
  rewrite <- split_nil_iff. unfold parse_signature. split.
  - destruct (split signature) as [|t toks]; [reflexivity|]. intros H. exfalso.
    cbn [byte_array_of] in H.
    destruct (if is_wildcard t then Ok 0
              else match int16 t with Some v => Ok v | None => Raise ValueError end)
      as [v|]; [|discriminate H].
    cbn [bind] in H. destruct (byte_array_of toks) as [vs|]; [|discriminate H].
    cbn [bind bytes_of] in H. destruct (byte_of_int v); [|discriminate H].
    destruct (bytes_of vs); discriminate H.
  - now intros ->.
Qed.

Lemma string_length_append (s t : string) :
  String.length (s ++ t) = (String.length s + String.length t)%nat.
Proof. induction s as [|c s IH]; cbn; [reflexivity | now rewrite IH]. Qed.

(** Formatting any [bytes] object with [{byte:02X}] joined by spaces and
    decoding the text gives the object back.  The text is empty for the
    empty object; otherwise it has two digits per byte and one space
    between two bytes, three characters per byte less one. *)
Theorem format_then_parse (bs : list byte) :
  parse_signature (hex_join bs) = Ok bs
  /\ String.length (hex_join bs)
     = match bs with
       | [] => 0%nat
       | _ :: rest => (2 + 3 * List.length rest)%nat
       end.
Proof.
  split; [apply parse_signature_hex_join|].
  unfold hex_join. induction bs as [|b bs IH]; [reflexivity|].
  destruct bs as [|b' bs]; [reflexivity|].
  cbn [map] in *. rewrite join_cons2, !string_length_append, IH.
  cbn [List.length String.length format_02X]. lia.
Qed.

Lemma upper_hex_token_byte (t : string) :
  two_hex t = true ->
  is_wildcard t = false /\ format_02X (token_byte t) = upper_hex t
  /\ int16 t = Some (Z.of_N (Byte.to_N (token_byte t))).
Proof.
  destruct t as [|a [|b [|]]]; try discriminate. cbn [two_hex]. intros H.
  apply andb_prop in H as [Ha Hb].
  apply is_hex_digit_In in Ha, Hb.
  cbn [hex_digits list_ascii_of_string In] in Ha, Hb.
  by_cases Ha; by_cases Hb; repeat split; reflexivity.
Qed.

(** Decoding a signature of two-digit hexadecimal tokens, of either
    case, and formatting the bytes gives the signature in upper case. *)
Theorem decode_encode_upper_case (toks : list string) :
  Forall (fun t => two_hex t = true) toks ->
  exists bs,
    parse_signature (join " " toks) = Ok bs
    /\ List.length bs = List.length toks
    /\ hex_join bs = join " " (map upper_hex toks).
Proof.
  intros H. exists (map token_byte toks). split; [|split].
  - unfold parse_signature. rewrite split_join.
    + assert (Hb : byte_array_of toks
                   = Ok (map (fun b => Z.of_N (Byte.to_N b)) (map token_byte toks))).
      { induction H as [|t toks Ht _ IH]; [reflexivity|].
        cbn [byte_array_of map]. apply upper_hex_token_byte in Ht as (-> & _ & ->).
        now rewrite IH. }
      rewrite Hb. cbn [bind]. apply bytes_of_to_N.
    + eapply Forall_impl; [|exact H]. intros t Ht.
      apply upper_hex_token_byte in Ht as (_ & Hf & _).
      destruct t as [|a [|b [|]]]; try discriminate Hf.
      assert (Htok : is_token (format_02X (token_byte (String a (String b "")))) = true)
        by apply is_token_format_02X.
      rewrite Hf in Htok. unfold is_token in *. cbn [upper_hex is_empty negb andb no_space] in *.
      revert Htok. clear. intros H.
      apply andb_prop in H as [Ha H]. apply andb_prop in H as [Hb _].
      assert (Hup : forall c, negb (isspace (upper_hex_char c)) = true ->
                              negb (isspace c) = true).
      { intros c. split_ascii c; vm_compute; congruence. }
      now rewrite (Hup a Ha), (Hup b Hb).
  - apply length_map.
  - unfold hex_join. f_equal. rewrite map_map. apply map_ext_in.
    intros t Ht. rewrite Forall_forall in H.
    now destruct (upper_hex_token_byte t (H t Ht)) as (_ & Hf & _).
Qed.

Lemma decode_encode_upper_case_witness :
  Forall (fun t => two_hex t = true) ["b8"; "3E"; "fa"]
  /\ exists bs,
       parse_signature "b8 3E fa" = Ok bs
       /\ List.length bs = 3%nat
       /\ hex_join bs = "B8 3E FA".
Proof.
  split; [repeat constructor|].
  apply (decode_encode_upper_case ["b8"; "3E"; "fa"]). repeat constructor.
Defined.

(** ** The resolution source *)

Lemma find_first {A : Type} (f : A -> bool) (l : list A) (m : A) :
  find f l = Some m ->
  exists before after,
    l = before ++ m :: after /\ f m = true
    /\ Forall (fun x => f x = false) before.
Proof.
  induction l as [|x l IH]; [discriminate|]. cbn [find].
  destruct (f x) eqn:Hx.
  - intros [= <-]. exists [], l. repeat split; [exact Hx | constructor].
  - intros H. destruct (IH H) as (before & after & -> & Hm & Hb).
    exists (x :: before), after. repeat split; [exact Hm | now constructor].
Qed.

(** Given a list of monitors that is not empty, [get_desktop_resolution]
    returns, without raising, the resolution of the first monitor of the
    list flagged primary, or of the first monitor of the list when none
    is flagged. *)
Theorem get_desktop_resolution_first_primary (monitors : list monitor) :
  monitors <> [] ->
  exists before m after,
    monitors = before ++ m :: after
    /\ get_desktop_resolution monitors = Ok (width m, height m)
    /\ Forall (fun x => is_primary x = false) before
    /\ (is_primary m = true
        \/ (before = [] /\ Forall (fun x => is_primary x = false) monitors)).
Proof.
  intros Hne. unfold get_desktop_resolution.
  destruct (find is_primary monitors) as [m|] eqn:Hf.
  - destruct (find_first _ _ _ Hf) as (before & after & Hm & Hp & Hb).
    exists before, m, after. repeat split; auto.
  - assert (Hall : Forall (fun x => is_primary x = false) monitors).
    { apply Forall_forall. intros x Hx. apply (find_none _ _ Hf x Hx). }
    destruct monitors as [|m0 rest]; [contradiction|].
    exists [], m0, rest. repeat split; auto.
Qed.

Lemma get_desktop_resolution_first_primary_witness :
  [Monitor false 1280 1024; Monitor true 5120 1440; Monitor true 1920 1080] <> []
  /\ exists before m after,
       [Monitor false 1280 1024; Monitor true 5120 1440; Monitor true 1920 1080]
       = before ++ m :: after
       /\ get_desktop_resolution
            [Monitor false 1280 1024; Monitor true 5120 1440; Monitor true 1920 1080]
          = Ok (width m, height m)
       /\ Forall (fun x => is_primary x = false) before
       /\ (is_primary m = true
           \/ (before = []
               /\ Forall (fun x => is_primary x = false)
                    [Monitor false 1280 1024; Monitor true 5120 1440;
                     Monitor true 1920 1080])).
Proof.
  split; [discriminate|].
  apply (get_desktop_resolution_first_primary
           [Monitor false 1280 1024; Monitor true 5120 1440; Monitor true 1920 1080]).
  discriminate.
Defined.

(** ** The patch calculator: when it raises, and what the offset is *)

Lemma int_truediv2_raises (n : Z) (e : exn) :
  int_truediv2 n = Raise e -> e = OverflowError.
Proof.
  unfold int_truediv2.
  destruct (2 ^ 1025 <=? _); [now intros [= <-] | discriminate].
Qed.

(** [compute_patch] raises nothing but [OverflowError].  When the width
    and the desktop width differ by less than [2^53], it returns a
    pattern exactly when the width is in [0, 2^32), the height in
    [0, 2^28) and the width is at most one above the desktop width and
    less than [2^33] below it: a width two or more above the desktop
    width always raises. *)
Theorem compute_patch_succeeds_iff
    (cw ch desktop_width desktop_height width height : Z) :
  resolve cw ch desktop_width desktop_height = (width, height) ->
  Z.abs (desktop_width - width) < 2 ^ 53 ->
  ((exists pattern, compute_patch cw ch desktop_width desktop_height = Ok pattern)
   <-> (0 <= width < 2 ^ 32 /\ 0 <= height < 2 ^ 28
        /\ -1 <= desktop_width - width < 2 ^ 33))
  /\ (forall e, compute_patch cw ch desktop_width desktop_height = Raise e ->
                e = OverflowError).
Proof.
  intros Hr Hd. unfold compute_patch. rewrite Hr.
  unfold compute_offset. rewrite (int_truediv2_quot _ Hd). cbn [bind].
  unfold compute_special. rewrite Z.shiftl_mul_pow2 by lia.
  change (2 ^ 4) with 16.
  set (offset := Z.quot (desktop_width - width) 2).
  assert (Hoff : 0 <= offset < 2 ^ 32 <-> -1 <= desktop_width - width < 2 ^ 33).
  { unfold offset. apply quot2_in_range. }
  change (2 ^ 28) with 268435456.
  destruct (to_bytes4_cases (height * 16)) as [[Hs ->] | [Hs ->]]; cbn [bind].
  2:{ split; [|now intros e [= <-]]. split; [intros [p Hp]; discriminate Hp|].
      intros (_ & Hh & _). exfalso. apply Hs. change (2 ^ 32) with 4294967296. lia. }
  destruct (to_bytes4_cases width) as [[Hw ->] | [Hw ->]]; cbn [bind].
  2:{ split; [|now intros e [= <-]]. split; [intros [p Hp]; discriminate Hp|].
      intros (Hw' & _). contradiction. }
  destruct (to_bytes4_cases height) as [[Hh ->] | [Hh ->]]; cbn [bind].
  2:{ split; [|now intros e [= <-]]. split; [intros [p Hp]; discriminate Hp|].
      intros (_ & Hh' & _). exfalso. apply Hh. change (2 ^ 32) with 4294967296. lia. }
  destruct (to_bytes4_cases offset) as [[Ho ->] | [Ho ->]]; cbn [bind].
  2:{ split; [|now intros e [= <-]]. split; [intros [p Hp]; discriminate Hp|].
      intros (_ & _ & Hd'). exfalso. apply Ho. now apply Hoff. }
  split; [|discriminate]. split; [|eauto].
  intros _. repeat split; try lia; try apply Hoff; try exact Ho.
  all: change (2 ^ 32) with 4294967296 in Hs; lia.
Qed.

Lemma compute_patch_succeeds_iff_witness :
  resolve 1921 1080 1920 1080 = (1921, 1080)
  /\ Z.abs (1920 - 1921) < 2 ^ 53
  /\ (exists pattern, compute_patch 1921 1080 1920 1080 = Ok pattern)
  /\ ~ (exists pattern, compute_patch 1922 1080 1920 1080 = Ok pattern).
Proof.
  split; [reflexivity|]. split; [reflexivity|]. split.
  - apply (compute_patch_succeeds_iff 1921 1080 1920 1080 1921 1080 eq_refl eq_refl).
    repeat split; discriminate.
  - intros H.
    apply (compute_patch_succeeds_iff 1922 1080 1920 1080 1922 1080 eq_refl eq_refl)
      in H as (_ & _ & H & _).
    now apply H.
Defined.

(** For a width that does not exceed the desktop width, the offset
    centres the picture: the margin left of it and the margin right of
    it differ by at most one pixel, the right one being the larger. *)
Theorem offset_centres (desktop_width width offset : Z) :
  width <= desktop_width ->
  desktop_width - width < 2 ^ 53 ->
  compute_offset desktop_width width = Ok offset ->
  0 <= offset
  /\ 0 <= (desktop_width - width - offset) - offset <= 1.
Proof.
  intros Hle Hd. unfold compute_offset.
  rewrite int_truediv2_quot by (rewrite Z.abs_eq by lia; exact Hd).
  intros [= <-]. rewrite Z.quot_div_nonneg by lia.
  pose proof (Z.div_mod (desktop_width - width) 2 ltac:(lia)).
  pose proof (Z.mod_pos_bound (desktop_width - width) 2 ltac:(lia)).
  split; [apply Z.div_pos; lia | lia].
Qed.

Lemma offset_centres_witness :
  1920 <= 5121 /\ 5121 - 1920 < 2 ^ 53
  /\ compute_offset 5121 1920 = Ok 1600
  /\ 0 <= 1600 /\ 0 <= (5121 - 1920 - 1600) - 1600 <= 1.
Proof.
  split; [discriminate|]. split; [reflexivity|]. split; [reflexivity|].
  apply (offset_centres 5121 1920 1600); [discriminate | reflexivity | reflexivity].
Defined.

(** ** The patcher: what a failed run leaves behind *)

Lemma search_and_replace_cannot_open
    (game_path search_pattern replace_pattern : string) (sp1 rp : list byte)
    (w : world) :
  cannot_open (exe w) ->
  exe (snd (search_and_replace game_path search_pattern replace_pattern sp1 rp w)) = exe w
  /\ sidecar (snd (search_and_replace game_path search_pattern replace_pattern sp1 rp w))
     = sidecar w.
Proof.
  unfold search_and_replace. destruct (exe w) as [|e|data] eqn:He; cbn;
    [now rewrite He | now rewrite He | contradiction].
Qed.

Lemma parse_signature_raises (signature : string) (e : exn) :
  parse_signature signature = Raise e -> e = ValueError.
Proof.
  unfold parse_signature.
  destruct (parse_tokens_cases (split signature)) as [(bs & -> & _) | (-> & _)];
    [discriminate | congruence].
Qed.

Lemma edit_exe_raise_untouched
    (game_path search_pattern replace_pattern : string) (w : world) (e : exn) :
  fst (edit_exe game_path search_pattern replace_pattern w) = Raise e ->
  exe (snd (edit_exe game_path search_pattern replace_pattern w)) = exe w
  /\ sidecar (snd (edit_exe game_path search_pattern replace_pattern w)) = sidecar w
  /\ (e = ValueError \/ e = IndexError).
Proof.
  unfold edit_exe.
  destruct (parse_signature (strip search_pattern)) as [sp0|e0] eqn:H0.
  2:{ cbn. intros [= <-]. repeat split. left. now apply parse_signature_raises in H0. }
  destruct (parse_signature replace_pattern) as [rp|e1] eqn:H1.
  2:{ cbn. intros [= <-]. repeat split. left. now apply parse_signature_raises in H1. }
  pose proof (read_sidecar_files (strip search_pattern) sp0 w) as [Hexe Hside].
  destruct (read_sidecar (strip search_pattern) sp0 w) as [[[eff sp1]|e2] w1] eqn:Hs.
  - destruct (search_and_replace game_path eff replace_pattern sp1 rp w1).
    discriminate.
  - cbn [fst snd] in *. intros [= <-]. repeat split; [exact Hexe | exact Hside |].
    unfold read_sidecar in Hs. destruct (sidecar w) as [|x|text]; try discriminate Hs.
    destruct (readlines text) as [|line lines]; [injection Hs as <- _; now right|].
    destruct (parse_signature (strip line)) eqn:H2; [discriminate Hs|].
    injection Hs as <- _. left. now apply parse_signature_raises in H2.
Qed.

(** When the executable cannot be opened (no file, or [open] fails),
    [edit_exe] never creates or changes it and never writes the side
    file, whatever the patterns and the side file are. *)
Theorem edit_exe_without_executable
    (game_path search_pattern replace_pattern : string) (w : world) :
  cannot_open (exe w) ->
  exe (snd (edit_exe game_path search_pattern replace_pattern w)) = exe w
  /\ sidecar (snd (edit_exe game_path search_pattern replace_pattern w)) = sidecar w.
Proof.
  intros Hno. unfold edit_exe.
  destruct (parse_signature (strip search_pattern)) as [sp0|]; [|now split].
  destruct (parse_signature replace_pattern) as [rp|]; [|now split].
  pose proof (read_sidecar_files (strip search_pattern) sp0 w) as [Hexe Hside].
  destruct (read_sidecar (strip search_pattern) sp0 w) as [[[eff sp1]|] w1];
    [|now split].
  cbn [snd] in Hexe, Hside.
  assert (Hno1 : cannot_open (exe w1)) by now rewrite Hexe.
  pose proof (search_and_replace_cannot_open game_path eff replace_pattern sp1 rp w1 Hno1)
    as [H1 H2].
  destruct (search_and_replace game_path eff replace_pattern sp1 rp w1) as [r' w'].
  cbn [fst snd] in *. split; congruence.
Qed.

Lemma edit_exe_without_executable_witness :
  let w := World Missing (Contents "AA BB") [] in
  cannot_open (exe w)
  /\ exe (snd (edit_exe "../Valkyria.exe" search_pattern1 "CC DD" w)) = Missing
  /\ sidecar (snd (edit_exe "../Valkyria.exe" search_pattern1 "CC DD" w))
     = Contents "AA BB".
Proof.
  intros w. split; [exact I|].
  apply (edit_exe_without_executable "../Valkyria.exe" search_pattern1 "CC DD" w).
  exact I.
Defined.

(** ** The patcher: which occurrence is written *)

Lemma strip_all_space (s : string) : all_chars isspace s = true -> strip s = "".
Proof.
  unfold strip. induction s as [|c s IH]; [reflexivity|].
  cbn [all_chars lstrip]. intros H. apply andb_prop in H as [Hc Hs].
  rewrite Hc. now apply IH.
Qed.

Lemma bytes_find_empty (data : list byte) : bytes_find data [] = 0.
Proof. unfold bytes_find. now destruct data. Qed.

(** When the first line of the side file is blank, the search pattern is
    empty, [find] answers 0, and [edit_exe] writes the replacement over
    the first bytes of the executable, whatever they are. *)
Theorem blank_sidecar_line_overwrites_start
    (game_path search_pattern replace_pattern text line : string)
    (lines : list string) (sp0 rp data : list byte) (w : world) :
  exe w = Contents data ->
  sidecar w = Contents text ->
  readlines text = line :: lines ->
  all_chars isspace line = true ->
  parse_signature (strip search_pattern) = Ok sp0 ->
  parse_signature replace_pattern = Ok rp ->
  fst (edit_exe game_path search_pattern replace_pattern w) = Ok None
  /\ exe (snd (edit_exe game_path search_pattern replace_pattern w))
     = Contents (rp ++ skipn (List.length rp) data)
  /\ sidecar (snd (edit_exe game_path search_pattern replace_pattern w))
     = Contents replace_pattern.
Proof.
  intros He Hs Hl Hblank H0 Hrp.
  assert (Hread : read_sidecar (strip search_pattern) sp0 w
                  = (Ok ("", []),
                     print "Will search for pattern: " (print "patch.txt found" w))).
  { unfold read_sidecar. rewrite Hs, Hl, (strip_all_space _ Hblank). reflexivity. }
  rewrite (edit_exe_unfold _ _ _ _ _ _ _ _ _ H0 Hrp Hread).
  cbn [fst snd]. rewrite search_and_replace_returns_None.
  set (w1 := print "Will search for pattern: " (print "patch.txt found" w)).
  assert (He1 : exe w1 = Contents data) by exact He.
  assert (Hne : bytes_find data [] <> -1) by (rewrite bytes_find_empty; discriminate).
  destruct (search_and_replace_found game_path "" replace_pattern [] rp data w1 He1 Hne)
    as [Hexe Hside].
  rewrite bytes_find_empty in Hexe. repeat split.
  - exact Hexe.
  - apply Hside. intros e. change (sidecar w1) with (sidecar w). now rewrite Hs.
Qed.

Lemma blank_sidecar_line_overwrites_start_witness :
  let w := World (Contents [x4d; x5a; x90; x00]) (Contents (String LF "")) [] in
  fst (edit_exe "../Valkyria.exe" search_pattern1 "CC DD" w) = Ok None
  /\ exe (snd (edit_exe "../Valkyria.exe" search_pattern1 "CC DD" w))
     = Contents [xcc; xdd; x90; x00]
  /\ sidecar (snd (edit_exe "../Valkyria.exe" search_pattern1 "CC DD" w))
     = Contents "CC DD".
Proof.
  intros w.
  exact (blank_sidecar_line_overwrites_start "../Valkyria.exe" search_pattern1 "CC DD"
           (String LF "") (String LF "") []
           [xb8; x39; x8e; xe3; x38; xf7; xe3; x8b; xfa; xb8; x39; x8e; xe3; x38]
           [xcc; xdd] [x4d; x5a; x90; x00] w
           eq_refl eq_refl eq_refl eq_refl eq_refl eq_refl).
Defined.

(** When the search buffer occurs several times, [edit_exe] writes at
    the first occurrence only: with no occurrence starting before the
    end of [pre], the new contents are the old ones with the replacement
    written at offset [len(pre)]; every byte from [len(pre) + len(rp)] on,
    later occurrences included, is unchanged. *)
Theorem first_occurrence_is_written
    (game_path search_pattern replace_pattern eff : string)
    (sp0 sp1 rp data pre post : list byte) (w w1 : world) :
  exe w = Contents data ->
  parse_signature (strip search_pattern) = Ok sp0 ->
  parse_signature replace_pattern = Ok rp ->
  read_sidecar (strip search_pattern) sp0 w = (Ok (eff, sp1), w1) ->
  data = pre ++ sp1 ++ post ->
  (forall pre' post', data = pre' ++ sp1 ++ post' ->
                      (List.length pre <= List.length pre')%nat) ->
  exe (snd (edit_exe game_path search_pattern replace_pattern w))
  = Contents (pre ++ rp ++ skipn (List.length rp) (sp1 ++ post))
  /\ (forall i, (List.length pre + List.length rp <= i)%nat ->
                nth_error (pre ++ rp ++ skipn (List.length rp) (sp1 ++ post)) i
                = nth_error data i).
Proof.
  intros He H0 Hrp Hs Hd Hmin.
  rewrite (edit_exe_unfold _ _ _ _ _ _ _ _ _ H0 Hrp Hs). cbn [snd].
  destruct (read_sidecar_files (strip search_pattern) sp0 w) as [He1 _].
  rewrite Hs in He1. cbn [snd] in He1. rewrite He in He1.
  destruct (bytes_find_first _ _ _ _ Hd) as (pre0 & post0 & Hd0 & Hf & Hle).
  pose proof (Hmin _ _ Hd0) as Hge.
  assert (Hlen : List.length pre0 = List.length pre) by lia.
  rewrite Hlen in Hf.
  assert (Hne : bytes_find data sp1 <> -1) by lia.
  destruct (search_and_replace_found game_path eff replace_pattern sp1 rp data w1
              He1 Hne) as [Hexe _].
  rewrite Hf in Hexe.
  assert (Hw : write_at data (Z.of_nat (List.length pre)) rp
               = pre ++ rp ++ skipn (List.length rp) (sp1 ++ post)).
  { unfold write_at. rewrite Nat2Z.id, Hd.
    rewrite firstn_app, firstn_all, Nat.sub_diag. cbn [firstn]. rewrite app_nil_r.
    rewrite skipn_app, skipn_all2 by lia.
    replace (List.length pre + List.length rp - List.length pre)%nat
      with (List.length rp) by lia.
    reflexivity. }
  split; [now rewrite Hexe, Hw|].
  intros i Hi. rewrite <- Hw. apply write_at_outside; [|now right].
  rewrite Hd, length_app. lia.
Qed.

Lemma first_occurrence_is_written_witness :
  let w := World (Contents [x00; xaa; xbb; x01; xaa; xbb; x02]) Missing [] in
  exe (snd (edit_exe "../Valkyria.exe" "AA BB" "CC DD" w))
  = Contents [x00; xcc; xdd; x01; xaa; xbb; x02]
  /\ (forall i, (1 + 2 <= i)%nat ->
                nth_error [x00; xcc; xdd; x01; xaa; xbb; x02] i
                = nth_error [x00; xaa; xbb; x01; xaa; xbb; x02] i).
Proof.
  intros w.
  refine (first_occurrence_is_written "../Valkyria.exe" "AA BB" "CC DD" "AA BB"
            [xaa; xbb] [xaa; xbb] [xcc; xdd] [x00; xaa; xbb; x01; xaa; xbb; x02]
            [x00] [x01; xaa; xbb; x02] w _ eq_refl eq_refl eq_refl eq_refl eq_refl _).
  intros pre' post' H. destruct pre' as [|? pre']; [discriminate H | cbn; lia].
Defined.

(** ** The whole tool *)

Lemma compute_patch_raises (cw ch dw dh : Z) (e : exn) :
  compute_patch cw ch dw dh = Raise e -> e = OverflowError.
Proof.
  unfold compute_patch. destruct (resolve cw ch dw dh) as [width height].
  unfold compute_offset.
  destruct (int_truediv2 (dw - width)) as [offset|e0] eqn:Ho.
  2:{ cbn. intros [= <-]. now apply int_truediv2_raises in Ho. }
  cbn [bind].
  destruct (to_bytes4_cases (compute_special height)) as [[_ ->] | [_ ->]]; cbn [bind];
    [|now intros [= <-]].
  destruct (to_bytes4_cases width) as [[_ ->] | [_ ->]]; cbn [bind]; [|now intros [= <-]].
  destruct (to_bytes4_cases height) as [[_ ->] | [_ ->]]; cbn [bind]; [|now intros [= <-]].
  destruct (to_bytes4_cases offset) as [[_ ->] | [_ ->]]; cbn [bind]; [|now intros [= <-]].
  discriminate.
Qed.

(** What [compute_patch] returns is the formatting of 31 bytes. *)
Lemma compute_patch_decodes (cw ch dw dh : Z) (r : string) :
  compute_patch cw ch dw dh = Ok r ->
  exists rp, r = hex_join rp /\ parse_signature r = Ok rp
             /\ List.length rp = 31%nat.
Proof.
  intros Hc.
  destruct (compute_patch_layout _ _ _ _ _ Hc)
    as (wb & sb & ob & hb & Hw & Hs & Ho & Hh & _ & ->).
  exists (layout wb sb ob hb).
  split; [reflexivity|]. split; [apply parse_signature_hex_join|].
  destruct wb as [|? [|? [|? [|? [|]]]]]; try discriminate Hw.
  destruct sb as [|? [|? [|? [|? [|]]]]]; try discriminate Hs.
  destruct ob as [|? [|? [|? [|? [|]]]]]; try discriminate Ho.
  destruct hb as [|? [|? [|? [|? [|]]]]]; try discriminate Hh.
  reflexivity.
Qed.

(** With a configuration whose resolution has integer width and height,
    and given the list of monitors, whenever [patch] raises, the
    executable and the side file are as they were, and the exception is
    an [IndexError] (an empty list of monitors, or a side file without a
    line), an [OverflowError] (a value that does not fit its four bytes)
    or a [ValueError] (a side file whose first line does not decode). *)
Theorem patch_raise_leaves_files
    (game_exe : string) (cw ch : Z) (monitors : list monitor)
    (w : world) (e : exn) :
  fst (patch game_exe (YamlResolution cw ch) monitors w) = Raise e ->
  exe (snd (patch game_exe (YamlResolution cw ch) monitors w)) = exe w
  /\ sidecar (snd (patch game_exe (YamlResolution cw ch) monitors w)) = sidecar w
  /\ ((e = IndexError /\ (monitors = [] \/ sidecar w = Contents ""))
      \/ (e = OverflowError
          /\ exists dw dh, get_desktop_resolution monitors = Ok (dw, dh)
                           /\ compute_patch cw ch dw dh = Raise OverflowError)
      \/ (e = ValueError
          /\ exists text line lines,
               sidecar w = Contents text /\ readlines text = line :: lines
               /\ parse_signature (strip line) = Raise ValueError)).
Proof.
  unfold patch. cbn [read_yaml].
  destruct (get_desktop_resolution monitors) as [[dw dh]|e0] eqn:Hm.
  2:{ cbn. intros [= <-]. repeat split. left.
      unfold get_desktop_resolution in Hm.
      destruct (find is_primary monitors); [discriminate Hm|].
      destruct monitors; [injection Hm as <-; split; [reflexivity | now left]
                         | discriminate Hm]. }
  destruct (compute_patch cw ch dw dh) as [r|e1] eqn:Hc.
  2:{ cbn. intros [= <-]. repeat split. right. left.
      pose proof (compute_patch_raises _ _ _ _ _ Hc) as ->.
      split; [reflexivity|]. exists dw, dh. now split. }
  set (w0 := print _ (print _ w)).
  destruct (compute_patch_decodes _ _ _ _ _ Hc) as (rp & _ & Hrp & _).
  pose proof (read_sidecar_files (strip search_pattern1)
                [xb8; x39; x8e; xe3; x38; xf7; xe3; x8b; xfa; xb8; x39; x8e; xe3; x38] w0)
    as [Hexe Hside].
  unfold edit_exe.
  change (parse_signature (strip search_pattern1))
    with (Ok [xb8; x39; x8e; xe3; x38; xf7; xe3; x8b; xfa; xb8; x39; x8e; xe3; x38]).
  rewrite Hrp.
  destruct (read_sidecar (strip search_pattern1)
              [xb8; x39; x8e; xe3; x38; xf7; xe3; x8b; xfa; xb8; x39; x8e; xe3; x38] w0)
    as [[[eff sp1]|e2] w1] eqn:Hs.
  - destruct (search_and_replace game_exe eff r sp1 rp w1). discriminate.
  - cbn [fst snd] in *. intros [= <-].
    split; [exact Hexe|]. split; [exact Hside|].
    unfold read_sidecar in Hs. change (sidecar w0) with (sidecar w) in Hs.
    destruct (sidecar w) as [|x|text] eqn:Hsw; try discriminate Hs.
    destruct (readlines text) as [|line lines] eqn:Hl.
    + injection Hs as <- _. left. split; [reflexivity|]. right.
      apply readlines_nil_iff in Hl. now subst text.
    + destruct (parse_signature (strip line)) as [|e3] eqn:H2; [discriminate Hs|].
      injection Hs as <- _. pose proof (parse_signature_raises _ _ H2) as ->.
      right. right. split; [reflexivity|]. exists text, line, lines. now repeat split.
Qed.

Lemma patch_raise_leaves_files_witness :
  let w := World (Contents [x00; xaa]) (Contents "zz") [] in
  fst (patch "../Valkyria.exe" (YamlResolution 1920 1080) [Monitor true 1920 1080] w)
  = Raise ValueError
  /\ exe (snd (patch "../Valkyria.exe" (YamlResolution 1920 1080)
                 [Monitor true 1920 1080] w)) = Contents [x00; xaa]
  /\ sidecar (snd (patch "../Valkyria.exe" (YamlResolution 1920 1080)
                     [Monitor true 1920 1080] w)) = Contents "zz".
Proof.
  intros w. split; [reflexivity|].
  destruct (patch_raise_leaves_files "../Valkyria.exe" 1920 1080
              [Monitor true 1920 1080] w ValueError eq_refl) as (H1 & H2 & _).
  split; [exact H1 | exact H2].
Defined.

(** The only change [edit_exe] makes to the files. *)
Lemma edit_exe_frame (game_path search_pattern replace_pattern : string) (w : world) :
  let w' := snd (edit_exe game_path search_pattern replace_pattern w) in
  (exe w' = exe w /\ sidecar w' = sidecar w)
  \/ (exists data sp1 rp,
         exe w = Contents data
         /\ parse_signature replace_pattern = Ok rp
         /\ 0 <= bytes_find data sp1 <= Z.of_nat (List.length data)
         /\ exe w' = Contents (write_at data (bytes_find data sp1) rp)
         /\ (sidecar w' = Contents replace_pattern \/ sidecar w' = sidecar w)).
Proof.
  unfold edit_exe.
  destruct (parse_signature (strip search_pattern)) as [sp0|]; [|now left].
  destruct (parse_signature replace_pattern) as [rp|]; [|now left].
  pose proof (read_sidecar_files (strip search_pattern) sp0 w) as [Hexe Hside].
  destruct (read_sidecar (strip search_pattern) sp0 w) as [[[eff sp1]|] w1];
    [|now left].
  cbn [snd] in Hexe, Hside.
  destruct (exe w1) as [|x|data] eqn:He1.
  - left.
    destruct (search_and_replace_cannot_open game_path eff replace_pattern sp1 rp w1)
      as [H1 H2]; [now rewrite He1|].
    destruct (search_and_replace game_path eff replace_pattern sp1 rp w1).
    cbn [snd] in *. split; congruence.
  - left.
    destruct (search_and_replace_cannot_open game_path eff replace_pattern sp1 rp w1)
      as [H1 H2]; [now rewrite He1|].
    destruct (search_and_replace game_path eff replace_pattern sp1 rp w1).
    cbn [snd] in *. split; congruence.
  - destruct (Z.eq_dec (bytes_find data sp1) (-1)) as [Hf|Hf].
    + left. unfold search_and_replace. rewrite He1, Hf.
      change (-1 =? -1) with true. cbv iota. cbn [snd exe sidecar print].
      split; congruence.
    + right. exists data, sp1, rp.
      destruct (search_and_replace_found game_path eff replace_pattern sp1 rp data w1
                  He1 Hf) as [Hw Hs].
      destruct (search_and_replace game_path eff replace_pattern sp1 rp w1) as [r' w']
        eqn:Hsr.
      cbn [snd] in *. repeat split.
      * congruence.
      * unfold bytes_find in *.
        destruct (find_from_spec data sp1 0) as [[Hn _] | (p & q & _ & Hp & _)]; lia.
      * unfold bytes_find in *.
        destruct (find_from_spec data sp1 0) as [[Hn _] | (p & q & Hd & Hp & _)];
          [lia|]. apply (f_equal (@List.length byte)) in Hd.
        rewrite !length_app in Hd. lia.
      * exact Hw.
      * destruct (sidecar w1) as [|x|text] eqn:Hs1.
        -- left. apply Hs. discriminate.
        -- right. unfold search_and_replace in Hsr. rewrite He1 in Hsr.
           apply Z.eqb_neq in Hf. rewrite Hf in Hsr. cbn [sidecar print set_exe] in Hsr.
           rewrite Hs1 in Hsr. injection Hsr as _ <-. cbn. now rewrite Hs1, <- Hside.
        -- left. apply Hs. discriminate.
Qed.

Lemma patch_runs_edit_exe
    (game_exe : string) (cw ch dw dh : Z) (monitors : list monitor)
    (r : string) (w : world) :
  get_desktop_resolution monitors = Ok (dw, dh) ->
  compute_patch cw ch dw dh = Ok r ->
  let w0 := print ("YAML: resolution: height: " ++ str ch)
              (print ("YAML: resolution: width:  " ++ str cw) w) in
  snd (patch game_exe (YamlResolution cw ch) monitors w)
  = snd (edit_exe game_exe search_pattern1 r w0)
  /\ (forall v, fst (edit_exe game_exe search_pattern1 r w0) = Ok v ->
                fst (patch game_exe (YamlResolution cw ch) monitors w) = Ok None).
Proof.
  intros Hm Hc w0. unfold patch. cbn [read_yaml]. rewrite Hm, Hc. fold w0.
  destruct (edit_exe game_exe search_pattern1 r w0) as [[v|e] w']; cbn [fst snd];
    split; try reflexivity; discriminate.
Qed.

(** The only change [patch] ever makes to the files: it writes the 31
    bytes of the replacement into the executable at an offset inside it,
    and then records the replacement pattern in the side file when that
    can be opened.  In every other run both files stay as they were. *)
Theorem patch_only_writes_replacement
    (game_exe : string) (yml : yaml_file) (monitors : list monitor) (w : world) :
  let w' := snd (patch game_exe yml monitors w) in
  (exe w' = exe w /\ sidecar w' = sidecar w)
  \/ (exists cw ch dw dh r rp data offset,
         yml = YamlResolution cw ch
         /\ get_desktop_resolution monitors = Ok (dw, dh)
         /\ compute_patch cw ch dw dh = Ok r
         /\ parse_signature r = Ok rp
         /\ List.length rp = 31%nat
         /\ exe w = Contents data
         /\ 0 <= offset <= Z.of_nat (List.length data)
         /\ exe w' = Contents (write_at data offset rp)
         /\ (sidecar w' = Contents r \/ sidecar w' = sidecar w)).
Proof.
  destruct yml as [|x| |cw ch]; try (left; split; reflexivity).
  destruct (get_desktop_resolution monitors) as [[dw dh]|e] eqn:Hm.
  2:{ left. unfold patch. cbn [read_yaml]. rewrite Hm. split; reflexivity. }
  destruct (compute_patch cw ch dw dh) as [r|e] eqn:Hc.
  2:{ left. unfold patch. cbn [read_yaml]. rewrite Hm, Hc. split; reflexivity. }
  destruct (patch_runs_edit_exe game_exe cw ch dw dh monitors r w Hm Hc) as [Hsnd _].
  cbv zeta. rewrite Hsnd.
  destruct (compute_patch_decodes _ _ _ _ _ Hc) as (rp & _ & Hrp & Hlen).
  destruct (edit_exe_frame game_exe search_pattern1 r
              (print ("YAML: resolution: height: " ++ str ch)
                 (print ("YAML: resolution: width:  " ++ str cw) w)))
    as [[H1 H2] | (data & sp1 & rp' & He & Hrp' & Hoff & Hw & Hs)].
  - left. split; [exact H1 | exact H2].
  - right. exists cw, ch, dw, dh, r, rp, data, (bytes_find data sp1).
    assert (rp' = rp) by congruence. subst rp'.
    repeat split; try assumption; try apply Hoff.
Qed.

Lemma write_at_same (pre rp post : list byte) :
  write_at (pre ++ rp ++ post) (Z.of_nat (List.length pre)) rp = pre ++ rp ++ post.
Proof.
  unfold write_at. rewrite Nat2Z.id.
  rewrite firstn_app, firstn_all, Nat.sub_diag. cbn [firstn]. rewrite app_nil_r.
  rewrite skipn_app, skipn_all2 by lia.
  replace (List.length pre + List.length rp - List.length pre)%nat
    with (List.length rp) by lia.
  rewrite skipn_app, skipn_all, Nat.sub_diag. reflexivity.
Qed.

(** A run whose side file holds the replacement pattern of this very
    run, on an executable that contains the replacement bytes, returns
    with both files unchanged. *)
Lemma edit_exe_rerun
    (game_path search_pattern : string) (sp0 rp data pre post : list byte) (w : world) :
  rp <> [] ->
  parse_signature (strip search_pattern) = Ok sp0 ->
  exe w = Contents data ->
  sidecar w = Contents (hex_join rp) ->
  data = pre ++ rp ++ post ->
  fst (edit_exe game_path search_pattern (hex_join rp) w) = Ok None
  /\ exe (snd (edit_exe game_path search_pattern (hex_join rp) w)) = Contents data
  /\ sidecar (snd (edit_exe game_path search_pattern (hex_join rp) w))
     = Contents (hex_join rp).
Proof.
  intros Hne H0 He Hs Hd.
  pose proof (read_sidecar_recorded rp (strip search_pattern) sp0 w Hne Hs) as Hfst.
  pose proof (read_sidecar_files (strip search_pattern) sp0 w) as [He1 Hs1].
  destruct (read_sidecar (strip search_pattern) sp0 w) as [res w1] eqn:Hread.
  cbn [fst snd] in *. subst res. rewrite He in He1. rewrite Hs in Hs1.
  rewrite (edit_exe_unfold _ _ _ _ _ _ _ _ _ H0 (parse_signature_hex_join rp) Hread).
  cbn [fst snd]. rewrite search_and_replace_returns_None.
  destruct (bytes_find_first _ _ _ _ Hd) as (pre0 & post0 & Hd0 & Hf & _).
  assert (Hn1 : bytes_find data rp <> -1) by lia.
  destruct (search_and_replace_found game_path (hex_join rp) (hex_join rp) rp rp data
              w1 He1 Hn1) as [Hexe Hside].
  repeat split.
  - rewrite Hexe, Hf. f_equal. rewrite Hd0 at 1. rewrite write_at_same. now symmetry.
  - apply Hside. intros e. rewrite Hs1. discriminate.
Qed.

(** Running the tool a second time with the same configuration changes
    nothing more.  From an executable that contains the default search
    bytes and no side file, the first run writes the replacement at the
    found offset and records the pattern; the second run then finds the
    replacement itself and leaves the executable and the side file as
    the first run left them. *)
Theorem patch_twice_is_patch_once
    (game_exe : string) (cw ch dw dh : Z) (monitors : list monitor)
    (r : string) (sp data pre post : list byte) (w : world) :
  get_desktop_resolution monitors = Ok (dw, dh) ->
  compute_patch cw ch dw dh = Ok r ->
  parse_signature search_pattern1 = Ok sp ->
  exe w = Contents data ->
  sidecar w = Missing ->
  data = pre ++ sp ++ post ->
  let w1 := snd (patch game_exe (YamlResolution cw ch) monitors w) in
  let w2 := snd (patch game_exe (YamlResolution cw ch) monitors w1) in
  exists rp,
    parse_signature r = Ok rp
    /\ exe w1 = Contents (write_at data (bytes_find data sp) rp)
    /\ sidecar w1 = Contents r
    /\ fst (patch game_exe (YamlResolution cw ch) monitors w1) = Ok None
    /\ exe w2 = exe w1
    /\ sidecar w2 = sidecar w1.
Proof.
  intros Hm Hc Hsp He Hs Hd w1 w2.
  destruct (compute_patch_decodes _ _ _ _ _ Hc) as (rp & Hr & Hrp & Hlen).
  exists rp. split; [exact Hrp|].
  assert (Hne : rp <> []) by (intros ->; discriminate Hlen).
  assert (Hsp' : sp = [xb8; x39; x8e; xe3; x38; xf7; xe3; x8b; xfa; xb8; x39; x8e; xe3; x38])
    by (vm_compute in Hsp; congruence).
  assert (H0 : parse_signature (strip search_pattern1) = Ok sp)
    by (rewrite Hsp'; reflexivity).
  (* the first run *)
  destruct (patch_runs_edit_exe game_exe cw ch dw dh monitors r w Hm Hc) as [Hsnd1 _].
  set (w0 := print ("YAML: resolution: height: " ++ str ch)
               (print ("YAML: resolution: width:  " ++ str cw) w)) in *.
  assert (Hread : read_sidecar (strip search_pattern1) sp w0
                  = (Ok (strip search_pattern1, sp),
                     print ("Will search using default pattern: " ++ strip search_pattern1)
                       (print "patch.txt not found" w0))).
  { unfold read_sidecar. change (sidecar w0) with (sidecar w). now rewrite Hs. }
  set (w0' := print ("Will search using default pattern: " ++ strip search_pattern1)
                (print "patch.txt not found" w0)) in *.
  assert (He0 : exe w0' = Contents data) by exact He.
  destruct (bytes_find_first _ _ _ _ Hd) as (pre0 & post0 & Hd0 & Hf & _).
  assert (Hn : bytes_find data sp <> -1) by lia.
  destruct (search_and_replace_found game_exe (strip search_pattern1) r sp rp data w0'
              He0 Hn) as [Hexe1 Hside1].
  assert (Hw1e : exe w1 = Contents (write_at data (bytes_find data sp) rp)).
  { unfold w1. rewrite Hsnd1.
    rewrite (edit_exe_unfold _ _ _ _ _ _ _ _ _ H0 Hrp Hread). exact Hexe1. }
  assert (Hw1s : sidecar w1 = Contents r).
  { unfold w1. rewrite Hsnd1.
    rewrite (edit_exe_unfold _ _ _ _ _ _ _ _ _ H0 Hrp Hread). apply Hside1.
    intros e. change (sidecar w0') with (sidecar w). rewrite Hs. discriminate. }
  split; [exact Hw1e|]. split; [exact Hw1s|].
  (* the second run *)
  destruct (patch_runs_edit_exe game_exe cw ch dw dh monitors r w1 Hm Hc) as [Hsnd2 Hfst2].
  set (w10 := print ("YAML: resolution: height: " ++ str ch)
                (print ("YAML: resolution: width:  " ++ str cw) w1)) in *.
  assert (He10 : exe w10 = Contents (write_at data (bytes_find data sp) rp)) by exact Hw1e.
  assert (Hs10 : sidecar w10 = Contents (hex_join rp)) by (rewrite <- Hr; exact Hw1s).
  destruct (edit_exe_rerun game_exe search_pattern1 sp rp
              (write_at data (bytes_find data sp) rp)
              (firstn (Z.to_nat (bytes_find data sp)) data)
              (skipn (Z.to_nat (bytes_find data sp) + List.length rp) data)
              w10 Hne H0 He10 Hs10 eq_refl) as (Hf2 & He2 & Hs2).
  rewrite <- Hr in Hf2, He2, Hs2.
  split; [now apply (Hfst2 None)|].
  unfold w2. rewrite Hsnd2. split; congruence.
Qed.

Lemma patch_twice_is_patch_once_witness :
  let sp := [xb8; x39; x8e; xe3; x38; xf7; xe3; x8b; xfa; xb8; x39; x8e; xe3; x38] in
  let data := [x00] ++ sp ++ [x01] in
  let w := World (Contents data) Missing [] in
  let run := patch "../Valkyria.exe" (YamlResolution 5120 1440) [Monitor true 5120 1440] in
  exists rp,
    parse_signature
      "B8 00 14 00 00 BB 00 5A 00 00 B9 00 00 00 00 BA 00 14 00 00 BE A0 05 00 00 BF 00 14 00 00 90"
    = Ok rp
    /\ exe (snd (run w)) = Contents (write_at data (bytes_find data sp) rp)
    /\ sidecar (snd (run w))
       = Contents "B8 00 14 00 00 BB 00 5A 00 00 B9 00 00 00 00 BA 00 14 00 00 BE A0 05 00 00 BF 00 14 00 00 90"
    /\ fst (run (snd (run w))) = Ok None
    /\ exe (snd (run (snd (run w)))) = exe (snd (run w))
    /\ sidecar (snd (run (snd (run w)))) = sidecar (snd (run w)).
Proof.
  intros sp data w run.
  exact (patch_twice_is_patch_once "../Valkyria.exe" 5120 1440 5120 1440
           [Monitor true 5120 1440] _ sp data [x00] [x01] w
           eq_refl eq_refl eq_refl eq_refl eq_refl eq_refl).
Defined.

(** ** The side file: only its first line counts *)

Lemma universal_newlines_append (s t : string) :
  all_chars no_newline s = true ->
  universal_newlines (s ++ t) = (s ++ universal_newlines t)%string.
Proof.
  induction s as [|c s IH]; [reflexivity|]. cbn [all_chars append universal_newlines].
  intros H. apply andb_prop in H as [Hc Hs]. unfold no_newline in Hc.
  apply andb_prop in Hc as [Hcr _]. apply negb_true_iff in Hcr.
  now rewrite Hcr, (IH Hs).
Qed.

Lemma lines_aux_append (s t : string) :
  all_chars no_newline s = true ->
  lines_aux (s ++ t) = (let (l, ls) := lines_aux t in ((s ++ l)%string, ls)).
Proof.
  induction s as [|c s IH]; cbn [all_chars append lines_aux]; intros H.
  - now destruct (lines_aux t).
  - apply andb_prop in H as [Hc Hs]. unfold no_newline in Hc.
    apply andb_prop in Hc as [_ Hlf]. apply negb_true_iff in Hlf.
    rewrite (IH Hs), Hlf. now destruct (lines_aux t).
Qed.

Lemma universal_newlines_line_end (nl : ascii) (rest : string) :
  nl = LF \/ nl = CR ->
  exists x, universal_newlines (String nl rest) = String LF x.
Proof.
  intros [-> | ->]; cbn [universal_newlines].
  - change (Ascii.eqb LF CR) with false. eauto.
  - change (Ascii.eqb CR CR) with true. destruct rest as [|c r]; [eauto|].
    destruct (Ascii.eqb c LF); eauto.
Qed.

Lemma rstrip_all_space (t : string) : all_chars isspace t = true -> rstrip t = "".
Proof.
  induction t as [|c t IH]; [reflexivity|]. cbn [all_chars rstrip]. intros H.
  apply andb_prop in H as [Hc Ht]. now rewrite (IH Ht), Hc.
Qed.

Lemma rstrip_append_space (s t : string) :
  all_chars isspace t = true -> rstrip (s ++ t) = rstrip s.
Proof.
  intros Ht. induction s as [|c s IH]; [now apply rstrip_all_space|].
  cbn [append rstrip]. now rewrite IH.
Qed.

(** The first line of a side file that starts with a formatted pattern. *)
Lemma read_sidecar_first_line
    (bs : list byte) (nl : ascii) (rest search_pattern : string)
    (sp0 : list byte) (w : world) :
  bs <> [] ->
  nl = LF \/ nl = CR ->
  sidecar w = Contents (hex_join bs ++ String nl rest)%string ->
  read_sidecar search_pattern sp0 w
  = (Ok (hex_join bs, bs),
     print ("Will search for pattern: " ++ hex_join bs)%string (print "patch.txt found" w)).
Proof.
  intros Hne Hnl Hs. unfold read_sidecar. rewrite Hs.
  pose proof (no_newline_hex_join bs) as Hnn.
  assert (Htok : Forall (fun t => is_token t = true) (map format_02X bs)).
  { apply Forall_forall. intros t Ht. apply in_map_iff in Ht as [b [<- _]].
    apply is_token_format_02X. }
  assert (Hstrip : strip (hex_join bs) = hex_join bs) by apply (strip_join _ Htok).
  assert (Hhead : exists c s', hex_join bs = String c s' /\ isspace c = false).
  { destruct bs as [|b bs]; [contradiction|]. unfold hex_join. cbn [map].
    assert (Hb : exists c s', format_02X b = String c s' /\ isspace c = false)
      by (destruct b; do 2 eexists; split; reflexivity).
    destruct Hb as (c & s' & Hb & Hc).
    destruct bs as [|b' bs].
    - exists c, s'. split; [exact Hb | exact Hc].
    - cbn [map]. rewrite join_cons2, Hb. cbn [append]. eauto. }
  assert (Hlines : exists lines,
             readlines (hex_join bs ++ String nl rest)%string
             = (hex_join bs ++ String LF "")%string :: lines).
  { unfold readlines. rewrite (universal_newlines_append _ _ Hnn).
    destruct (universal_newlines_line_end nl rest Hnl) as [x ->].
    rewrite (lines_aux_append _ _ Hnn). cbn [lines_aux].
    destruct (lines_aux x) as [l ls]. change (Ascii.eqb LF LF) with true.
    destruct Hhead as (c & s' & -> & _). cbn [append cons_token is_empty]. eauto. }
  destruct Hlines as [lines ->].
  assert (Hs2 : strip (hex_join bs ++ String LF "")%string = hex_join bs).
  { unfold strip in *. destruct Hhead as (c & s' & Hh & Hc). rewrite Hh in *.
    cbn [append lstrip] in *. rewrite Hc in *.
    change (String c (s' ++ String LF ""))%string with (String c s' ++ String LF "")%string.
    rewrite rstrip_append_space by reflexivity. exact Hstrip. }
  rewrite Hs2. now rewrite parse_signature_hex_join.
Qed.

Lemma search_and_replace_exe
    (game_path search_pattern replace_pattern : string) (sp1 rp : list byte)
    (w : world) :
  exe (snd (search_and_replace game_path search_pattern replace_pattern sp1 rp w))
  = match exe w with
    | Contents data =>
        if bytes_find data sp1 =? -1 then exe w
        else Contents (write_at data (bytes_find data sp1) rp)
    | _ => exe w
    end.
Proof.
  unfold search_and_replace. destruct (exe w) as [|e|data] eqn:He; cbn;
    try (now rewrite He).
  destruct (bytes_find data sp1 =? -1); cbn; [now rewrite He|].
  now destruct (sidecar w).
Qed.

(** Only the first line of the side file counts.  When the side file
    starts with a formatted pattern followed by a line end (LF, CR or
    CR LF) and anything else, [edit_exe] searches for the bytes of that
    pattern and treats the executable exactly as it does when the side
    file holds the pattern alone. *)
Theorem sidecar_first_line_only
    (game_path search_pattern replace_pattern rest : string)
    (bs sp0 rp : list byte) (nl : ascii) (w : world) :
  bs <> [] ->
  nl = LF \/ nl = CR ->
  parse_signature (strip search_pattern) = Ok sp0 ->
  parse_signature replace_pattern = Ok rp ->
  sidecar w = Contents (hex_join bs ++ String nl rest)%string ->
  fst (read_sidecar (strip search_pattern) sp0 w) = Ok (hex_join bs, bs)
  /\ fst (edit_exe game_path search_pattern replace_pattern w)
     = fst (edit_exe game_path search_pattern replace_pattern
              (set_sidecar (Contents (hex_join bs)) w))
  /\ exe (snd (edit_exe game_path search_pattern replace_pattern w))
     = exe (snd (edit_exe game_path search_pattern replace_pattern
                   (set_sidecar (Contents (hex_join bs)) w))).
Proof.
  intros Hne Hnl H0 Hrp Hs.
  pose proof (read_sidecar_first_line bs nl rest (strip search_pattern) sp0 w Hne Hnl Hs)
    as Hread.
  set (w' := set_sidecar (Contents (hex_join bs)) w).
  pose proof (read_sidecar_recorded bs (strip search_pattern) sp0 w' Hne eq_refl) as Hfst'.
  pose proof (read_sidecar_files (strip search_pattern) sp0 w') as [He' _].
  destruct (read_sidecar (strip search_pattern) sp0 w') as [res w1'] eqn:Hread'.
  cbn [fst snd] in *. subst res.
  rewrite (edit_exe_unfold _ _ _ _ _ _ _ _ _ H0 Hrp Hread).
  rewrite (edit_exe_unfold _ _ _ _ _ _ _ _ _ H0 Hrp Hread').
  cbn [fst snd]. rewrite Hread. split; [reflexivity|].
  rewrite !search_and_replace_returns_None. split; [reflexivity|].
  rewrite !search_and_replace_exe. rewrite He'. reflexivity.
Qed.

Lemma sidecar_first_line_only_witness :
  let w := World (Contents [x00; xaa; xbb; x01])
             (Contents ("AA BB" ++ String CR (String LF "old notes"))%string) [] in
  fst (read_sidecar (strip search_pattern1)
         [xb8; x39; x8e; xe3; x38; xf7; xe3; x8b; xfa; xb8; x39; x8e; xe3; x38] w)
  = Ok ("AA BB", [xaa; xbb])
  /\ fst (edit_exe "../Valkyria.exe" search_pattern1 "CC DD" w)
     = fst (edit_exe "../Valkyria.exe" search_pattern1 "CC DD"
              (set_sidecar (Contents "AA BB") w))
  /\ exe (snd (edit_exe "../Valkyria.exe" search_pattern1 "CC DD" w))
     = exe (snd (edit_exe "../Valkyria.exe" search_pattern1 "CC DD"
                   (set_sidecar (Contents "AA BB") w))).
Proof.
  intros w.
  refine (sidecar_first_line_only "../Valkyria.exe" search_pattern1 "CC DD"
            (String LF "old notes") [xaa; xbb]
            [xb8; x39; x8e; xe3; x38; xf7; xe3; x8b; xfa; xb8; x39; x8e; xe3; x38]
            [xcc; xdd] CR w _ (or_intror eq_refl) eq_refl eq_refl eq_refl).
  discriminate.
Defined.
